(** * Resilient orchestration pipeline of the YouTube scraper

    A shallow embedding of the retry/backoff policy, the scraping stage, the
    consecutive-failure circuit breaker, the discovery loop and the queue
    checkpoint loader, taken from

      - [scripts/youtube_orchestrator.py]       (class [ResilientOrchestrator])
      - [scripts/youtube_channel_scraper.py]    ([load_queue_file],
        [load_progress], [save_queue_file], [save_progress],
        [is_channel_completed], [save_channel_data], [scrape_channel])
      - [scripts/youtube_channel_discovery.py]  ([discover_channels],
        [_search_youtube_directly])

    Python integers are [Z]; list positions are [nat]; dictionaries keyed by
    strings are [gmap string _]; lists are [list]. *)

From Stdlib Require Import ZArith Ascii String.
From stdpp Require Import gmap strings list fin_maps sorting.

Local Open Scope string_scope.
Local Open Scope list_scope.
Local Open Scope Z_scope.

(** ** The [config] block of the orchestration state

    [OrchestrationState._create_initial_state] writes these seven tunables;
    a resumed run reads them back from the state file, so they are arbitrary
    integers here. *)

Record Config := {
  max_discovery_retries : Z;
  max_scrape_retries : Z;
  max_channel_retries : Z;
  browser_restart_interval : Z;
  cooldown_after_failure : Z;
  cooldown_multiplier : Z;
  max_cooldown : Z
}.

(** The values of [_create_initial_state]. *)
Definition initial_config : Config := {|
  max_discovery_retries := 5;
  max_scrape_retries := 3;
  max_channel_retries := 3;
  browser_restart_interval := 50;
  cooldown_after_failure := 60;
  cooldown_multiplier := 2;
  max_cooldown := 600
|}.

(** ** Retry/backoff policy *)

(** [ResilientOrchestrator._calculate_cooldown]:
<<
    cooldown = config['cooldown_after_failure']
               * (config['cooldown_multiplier'] ** (attempts - 1))
    return min(cooldown, config['max_cooldown'])
>>
    For [attempts >= 1] the exponent is a non-negative integer and Python's
    [**] on integers is [Z.pow].  (For [attempts < 1] Python's [**] leaves
    the integers; both callers pass an attempt number that is at least 1.) *)
Definition _calculate_cooldown (cfg : Config) (attempts : Z) : Z :=
  let cooldown :=
    cooldown_after_failure cfg * (cooldown_multiplier cfg ^ (attempts - 1)) in
  Z.min cooldown (max_cooldown cfg).

(** ** Checkpoint documents *)

(** A failure record of the queue's [failed] map:
    [{'attempts', 'last_error', 'first_failed_at'}]. *)
Record FailureRecord := {
  attempts : Z;
  last_error : string;
  first_failed_at : string
}.

#[global] Instance FailureRecord_eq_dec : EqDecision FailureRecord.
Proof. solve_decision. Defined.

(** The queue document, restricted to the keys the scraping stage reads or
    writes.  [channels] holds identifiers, as [create_queue_file] writes them
    ([[ch['channel_id'] for ch in channels]]); an entry given as a
    dictionary is read through its identifier and is not modelled apart.
    [category], [location], [channel_details], [created_at] and
    [total_count] are carried along unchanged and only feed the scraper
    call, so they are left out.  [current_index] is written as 0 by
    [create_queue_file] and as [i + 1] by the stages: a position, [nat].
    A missing [completed] or [failed] key reads as [[]] / [{}]
    ([queue_data.get('completed', [])], [queue_data.get('failed', {})]). *)
Record QueueData := {
  channels : list string;
  completed : list string;
  failed : gmap string FailureRecord;
  current_index : nat
}.

(** The [stats] dictionary [{'success', 'failed', 'skipped'}]. *)
Record Stats := {
  stat_success : nat;
  stat_failed : nat;
  stat_skipped : nat
}.

Definition zero_stats : Stats :=
  {| stat_success := 0; stat_failed := 0; stat_skipped := 0 |}.

(** The global scrape progress document. *)
Record Progress := {
  completed_channels : list string;
  failed_channels : gmap string FailureRecord;
  session_stats : Stats;
  last_updated : option string
}.

(** ** Files and exceptions *)

(** What [open(...)] followed by [json.load] meets at a path. *)
Inductive FileState (A : Type) : Type :=
| Missing                      (* no such file *)
| Unreadable                   (* exists, cannot be opened for reading *)
| Garbled (raw : string)       (* readable, content is not valid JSON *)
| Document (doc : A).          (* readable, valid JSON of the expected shape *)
Arguments Missing {A}.
Arguments Unreadable {A}.
Arguments Garbled {A} raw.
Arguments Document {A} doc.

(** The exception classes that occur.  [KeyboardInterrupt] derives from
    [BaseException] only; [GracefulExit] is the orchestrator's own
    [Exception] subclass. *)
Inductive PyExn : Type :=
| FileNotFoundError
| PermissionError
| JSONDecodeError
| KeyboardInterrupt
| GracefulExit.

Definition is_Exception (e : PyExn) : bool :=
  match e with
  | KeyboardInterrupt => false
  | _ => true
  end.

(** A computation that returns or raises. *)
Definition Py (A : Type) : Type := PyExn + A.

(** [with open(path, 'r', encoding='utf-8') as f: return json.load(f)] *)
Definition open_json_load {A} (f : FileState A) : Py A :=
  match f with
  | Missing => inl FileNotFoundError
  | Unreadable => inl PermissionError
  | Garbled _ => inl JSONDecodeError
  | Document doc => inr doc
  end.

(** [try: body  except Exception as e: handler] *)
Definition try_except_Exception {A} (body : Py A) (handler : PyExn → Py A)
  : Py A :=
  match body with
  | inr a => inr a
  | inl e => if is_Exception e then handler e else inl e
  end.

Definition default_queue : QueueData :=
  {| channels := []; completed := []; failed := ∅; current_index := 0 |}.

(** [load_queue_file] of [youtube_channel_scraper.py]:
<<
    try:
        with open(queue_file, 'r', encoding='utf-8') as f:
            return json.load(f)
    except Exception as e:
        logger.error(...)
        return {'channels': [], 'completed': [], 'failed': {}, 'current_index': 0}
>> *)
Definition load_queue_file (f : FileState QueueData) : Py QueueData :=
  try_except_Exception (open_json_load f) (λ _, inr default_queue).

Definition default_progress : Progress :=
  {| completed_channels := []; failed_channels := ∅;
     session_stats := zero_stats; last_updated := None |}.

(** [load_progress]: the file is opened only if it exists; any [Exception]
    falls through to the default document. *)
Definition load_progress (f : FileState Progress) : Py Progress :=
  match
    try_except_Exception
      (match f with
       | Missing => inr None
       | _ => match open_json_load f with
              | inl e => inl e
              | inr p => inr (Some p)
              end
       end)
      (λ _, inr None)
  with
  | inl e => inl e
  | inr (Some p) => inr p
  | inr None => inr default_progress
  end.

(** The checkpoint store as the scraping stage sees it: the queue file, the
    global progress file and the names ([<name>.json]) present in the
    output directory that [is_channel_completed] inspects. *)
Record Disk := {
  queue_file : FileState QueueData;
  progress_file : FileState Progress;
  output_dir : gset string
}.

(** ** Identifiers and artifacts *)

(** [s.replace(c, r)] for a one-character pattern [c]. *)
Fixpoint str_replace (c : Ascii.ascii) (r : string) (s : string) : string :=
  match s with
  | EmptyString => EmptyString
  | String a rest =>
      if decide (a = c) then r +:+ str_replace c r rest
      else String a (str_replace c r rest)
  end.

(** [channel_id.replace('@', '').replace('/', '_').replace('\\', '_')] *)
Definition safe_id (channel_id : string) : string :=
  str_replace "\"%char "_"
    (str_replace "/"%char "_" (str_replace "@"%char "" channel_id)).

(** [is_channel_completed(channel_id, progress, output_dir)] *)
Definition is_channel_completed
    (channel_id : string) (p : Progress) (out : gset string) : bool :=
  if decide (channel_id ∈ completed_channels p) then true
  else bool_decide (safe_id channel_id ∈ out).

(** ** The scraping stage: [ResilientOrchestrator.run_scraping] *)

(** What one call [scraper.scrape_channel(...)] followed by
    [scraper.save_channel_data(...)] does inside the [try] of the loop body.
    [Success data_id]: both returned; [data_id] is the
    [channel_data.get('channel_id') or channel_data.get('handle', 'unknown')]
    from which [save_channel_data] names the artifact.  The other four are
    the [except] clauses, in the order of the source; [TransientError] is
    the final [except Exception]. *)
Inductive Outcome : Type :=
| Success (data_id : string)
| Skipped (msg : string)          (* ChannelSkippedException *)
| NotFound (msg : string)         (* ChannelNotFoundException *)
| RateLimited (msg : string)      (* RateLimitException *)
| TransientError (msg : string).  (* any other Exception *)

(** Everything outside the orchestrator that a run observes.  The loop
    visits a position at most once, so the position stands for the moment
    of the observation. *)
Record World := {
  (* the outcome of the scraper at loop position [i] for that identifier *)
  scrape_channel : nat → string → Outcome;
  (* [self.shutdown_requested] as read at the top of iteration [i] *)
  shutdown_requested : nat → bool;
  (* [datetime.now(timezone.utc).isoformat()] during iteration [i] *)
  utcnow : nat → string;
  (* whether [scraper.output_dir] ([get_output_dir(queue_file, config_path)])
     is the directory [get_output_dir(queue_file)] that the skip rule checks *)
  scraper_dir_is_output_dir : bool
}.

(** What the browser session yields when [scrape_channel] works on one
    identifier and [save_channel_data] writes the result. *)
Inductive Page : Type :=
| PageUnavailable                  (* the 404 indicators are found *)
| PageBroken (error : string)      (* navigation, extraction or the write raises *)
| PageScraped (data_id : string).  (* data built and written under [data_id] *)

(** [YouTubeScraperPlaywright.scrape_channel] as the [try] of the loop body
    sees it:
<<
    try:
        ...
        if is_404:
            raise ChannelNotFoundException(f"Channel not found: {channel_identifier}")
        ...
        return channel_data
    except ChannelNotFoundException:
        raise
    except Exception as e:
        logger.error(...)
        raise
>>
    No statement of the scraper raises [ChannelSkippedException] or
    [RateLimitException]. *)
Definition scraper_outcome (channel_identifier : string) (pg : Page)
  : Outcome :=
  match pg with
  | PageUnavailable => NotFound ("Channel not found: " +:+ channel_identifier)
  | PageBroken error => TransientError error
  | PageScraped data_id => Success data_id
  end.

(** A world whose scraper is [YouTubeScraperPlaywright]. *)
Definition scraper_world (page : nat → string → Page)
    (shutdown : nat → bool) (now : nat → string) (same_dir : bool) : World :=
  {| scrape_channel := λ i id, scraper_outcome id (page i id);
     shutdown_requested := shutdown;
     utcnow := now;
     scraper_dir_is_output_dir := same_dir |}.

(** The counters of [state_manager.state['stats']] that the stage touches. *)
Record OrchStats := {
  total_channels_scraped : Z;
  total_channels_failed : Z;
  browser_restarts : Z
}.

(** Externally visible actions, in the order they happen. *)
Inductive Event : Type :=
| EvStartBrowser                        (* scraper.start_browser(...) *)
| EvCleanup                             (* scraper.cleanup() *)
| EvSleep (seconds : Z)                 (* asyncio.sleep(<integer>) *)
| EvRandomDelay                         (* asyncio.sleep(random.uniform(...)) *)
| EvScrape (i : nat) (channel_id : string)  (* scraper.scrape_channel(...) *)
| EvSaveArtifact (name : string)        (* save_channel_data writes <name>.json *)
| EvSaveQueue (q : QueueData)           (* save_queue_file *)
| EvSaveProgress (p : Progress)         (* save_progress *)
| EvSaveState.                          (* state_manager.save() *)

(** The local variables of [run_scraping], the orchestration counters, the
    checkpoint store and the actions so far. *)
Record RunState := {
  queue_data : QueueData;
  progress : Progress;
  stats : Stats;
  channels_since_restart : Z;
  orch : OrchStats;
  disk : Disk;
  trace : list Event
}.

Definition emit (e : Event) (s : RunState) : RunState :=
  {| queue_data := queue_data s; progress := progress s; stats := stats s;
     channels_since_restart := channels_since_restart s; orch := orch s;
     disk := disk s; trace := trace s ++ [e] |}.

Definition set_queue_data (q : QueueData) (s : RunState) : RunState :=
  {| queue_data := q; progress := progress s; stats := stats s;
     channels_since_restart := channels_since_restart s; orch := orch s;
     disk := disk s; trace := trace s |}.

Definition set_progress (p : Progress) (s : RunState) : RunState :=
  {| queue_data := queue_data s; progress := p; stats := stats s;
     channels_since_restart := channels_since_restart s; orch := orch s;
     disk := disk s; trace := trace s |}.

Definition set_stats (st : Stats) (s : RunState) : RunState :=
  {| queue_data := queue_data s; progress := progress s; stats := st;
     channels_since_restart := channels_since_restart s; orch := orch s;
     disk := disk s; trace := trace s |}.

Definition set_channels_since_restart (n : Z) (s : RunState) : RunState :=
  {| queue_data := queue_data s; progress := progress s; stats := stats s;
     channels_since_restart := n; orch := orch s;
     disk := disk s; trace := trace s |}.

Definition set_orch (o : OrchStats) (s : RunState) : RunState :=
  {| queue_data := queue_data s; progress := progress s; stats := stats s;
     channels_since_restart := channels_since_restart s; orch := o;
     disk := disk s; trace := trace s |}.

Definition set_disk (d : Disk) (s : RunState) : RunState :=
  {| queue_data := queue_data s; progress := progress s; stats := stats s;
     channels_since_restart := channels_since_restart s; orch := orch s;
     disk := d; trace := trace s |}.

(** [queue_data['current_index'] = n] *)
Definition set_current_index (n : nat) (q : QueueData) : QueueData :=
  {| channels := channels q; completed := completed q; failed := failed q;
     current_index := n |}.

(** [stats['success'] += 1], [stats['failed'] += 1], [stats['skipped'] += 1] *)
Definition incr_success (st : Stats) : Stats :=
  {| stat_success := S (stat_success st); stat_failed := stat_failed st;
     stat_skipped := stat_skipped st |}.
Definition incr_failed (st : Stats) : Stats :=
  {| stat_success := stat_success st; stat_failed := S (stat_failed st);
     stat_skipped := stat_skipped st |}.
Definition incr_skipped (st : Stats) : Stats :=
  {| stat_success := stat_success st; stat_failed := stat_failed st;
     stat_skipped := S (stat_skipped st) |}.

(** [save_queue_file(queue_file, queue_data)]: a full-document overwrite.
    (A failing write is logged and ignored by the source; writes succeed
    here.) *)
Definition save_queue_file (s : RunState) : RunState :=
  emit (EvSaveQueue (queue_data s))
    (set_disk {| queue_file := Document (queue_data s);
                 progress_file := progress_file (disk s);
                 output_dir := output_dir (disk s) |} s).

(** [save_progress(progress, queue_file)]: stamps [last_updated] on the
    in-memory document, then overwrites the file. *)
Definition save_progress (now : string) (s : RunState) : RunState :=
  let p := {| completed_channels := completed_channels (progress s);
              failed_channels := failed_channels (progress s);
              session_stats := session_stats (progress s);
              last_updated := Some now |} in
  emit (EvSaveProgress p)
    (set_disk {| queue_file := queue_file (disk s);
                 progress_file := Document p;
                 output_dir := output_dir (disk s) |}
       (set_progress p s)).

(** [scraper.save_channel_data(channel_data)] *)
Definition save_channel_data (w : World) (data_id : string) (s : RunState)
  : RunState :=
  let name := safe_id data_id in
  emit (EvSaveArtifact name)
    (set_disk {| queue_file := queue_file (disk s);
                 progress_file := progress_file (disk s);
                 output_dir := if scraper_dir_is_output_dir w
                               then {[ name ]} ∪ output_dir (disk s)
                               else output_dir (disk s) |} s).

(** [self.state_manager.increment_stat('browser_restarts')] *)
Definition increment_browser_restarts (s : RunState) : RunState :=
  emit EvSaveState
    (set_orch {| total_channels_scraped := total_channels_scraped (orch s);
                 total_channels_failed := total_channels_failed (orch s);
                 browser_restarts := browser_restarts (orch s) + 1 |} s).

(** [await scraper.cleanup(); await asyncio.sleep(secs);
     await scraper.start_browser(...); channels_since_restart = 0] *)
Definition restart_browser (secs : Z) (s : RunState) : RunState :=
  set_channels_since_restart 0
    (emit EvStartBrowser (emit (EvSleep secs) (emit EvCleanup s))).

(** [_record_channel_failure(queue_data, progress, channel_id, error)].
    The record stored under [progress['failed_channels'][channel_id]] is
    the very object stored in [queue_data['failed'][channel_id]]; both are
    written here at every change, so they are kept equal by value. *)
Definition _record_channel_failure
    (now : string) (channel_id error : string) (s : RunState) : RunState :=
  let q := queue_data s in
  let r :=
    match failed q !! channel_id with
    | Some old => {| attempts := attempts old + 1; last_error := error;
                     first_failed_at := first_failed_at old |}
    | None => {| attempts := 1; last_error := error;
                 first_failed_at := now |}
    end in
  let q' := {| channels := channels q; completed := completed q;
               failed := <[channel_id := r]> (failed q);
               current_index := current_index q |} in
  let p := progress s in
  let p' := {| completed_channels := completed_channels p;
               failed_channels := <[channel_id := r]> (failed_channels p);
               session_stats := session_stats p;
               last_updated := last_updated p |} in
  set_progress p' (set_queue_data q' s).

(** ** The circuit breaker: [_check_consecutive_failures] *)

(** Python's [range(start, stop, -1)]: [start, start-1, ...], all [> stop]. *)
Definition range_down (start stop : Z) : list Z :=
  map (λ k : nat, start - Z.of_nat k) (seq 0 (Z.to_nat (start - stop))).

(** The [for] loop over the positions, with its [continue] and [break]. *)
Fixpoint count_consecutive
    (chans : list string) (fl : gmap string FailureRecord)
    (positions : list Z) (consecutive : Z) : Z :=
  match positions with
  | [] => consecutive
  | i :: rest =>
      if Z.of_nat (length chans) <=? i
      then count_consecutive chans fl rest consecutive           (* continue *)
      else
        match chans !! Z.to_nat i with
        | Some channel_id =>
            if decide (is_Some (fl !! channel_id))
            then count_consecutive chans fl rest (consecutive + 1)
            else consecutive                                      (* break *)
        | None => consecutive      (* not reached: 0 < i < len(channels) *)
        end
  end.

(** [_check_consecutive_failures(queue_data)]:
<<
    if not failed: return 0
    consecutive = 0
    for i in range(current_idx - 1, max(0, current_idx - 10), -1):
        if i >= len(channels): continue
        ...
        if channel_id in failed: consecutive += 1
        else: break
    return consecutive
>> *)
Definition _check_consecutive_failures (q : QueueData) : Z :=
  if decide (failed q = ∅) then 0
  else
    let current_idx := Z.of_nat (current_index q) in
    count_consecutive (channels q) (failed q)
      (range_down (current_idx - 1) (Z.max 0 (current_idx - 10))) 0.

(** [queue_data.get('failed', {}).get(channel_id, {}).get('attempts', 0)] *)
Definition failed_attempts (q : QueueData) (channel_id : string) : Z :=
  match failed q !! channel_id with
  | Some r => attempts r
  | None => 0
  end.

(** ** One iteration of the [for i in range(start_index, total_channels)]
    loop of [run_scraping], after the shutdown check. *)
Definition loop_body (w : World) (cfg : Config) (i : nat) (s : RunState)
  : RunState :=
  match channels (queue_data s) !! i with
  | None => s                        (* not reached: i < len(channels) *)
  | Some channel_id =>
    (* Skip completed *)
    if is_channel_completed channel_id (progress s) (output_dir (disk s))
    then set_stats (incr_skipped (stats s)) s
    else
      (* Check retry count *)
      let n_attempts := failed_attempts (queue_data s) channel_id in
      if max_channel_retries cfg <=? n_attempts
      then set_stats (incr_failed (stats s)) s
      else
        (* Browser restart check *)
        let s :=
          if browser_restart_interval cfg <=? channels_since_restart s
          then increment_browser_restarts (restart_browser 5 s)
          else s in
        let s := emit (EvScrape i channel_id) s in
        match scrape_channel w i channel_id with
        | Success data_id =>
            let s := save_channel_data w data_id s in
            let p := progress s in
            let s := set_progress
                       {| completed_channels :=
                            completed_channels p ++ [channel_id];
                          failed_channels := failed_channels p;
                          session_stats := session_stats p;
                          last_updated := last_updated p |} s in
            let q := queue_data s in
            let s := set_queue_data
                       {| channels := channels q;
                          completed := completed q ++ [channel_id];
                          failed := delete channel_id (failed q);
                          current_index := S i |} s in
            let s := set_stats (incr_success (stats s)) s in
            let s := set_channels_since_restart
                       (channels_since_restart s + 1) s in
            let o := orch s in
            let s := emit EvSaveState
                       (set_orch
                          {| total_channels_scraped :=
                               total_channels_scraped o + 1;
                             total_channels_failed := total_channels_failed o;
                             browser_restarts := browser_restarts o |} s) in
            let s := save_progress (utcnow w i) s in
            let s := save_queue_file s in
            emit EvRandomDelay s
        | Skipped _ =>
            let s := set_stats (incr_skipped (stats s)) s in
            let s := set_queue_data
                       (set_current_index (S i) (queue_data s)) s in
            save_queue_file s
        | NotFound msg =>
            let s := _record_channel_failure (utcnow w i) channel_id msg s in
            let s := set_stats (incr_failed (stats s)) s in
            let s := set_queue_data
                       (set_current_index (S i) (queue_data s)) s in
            let s := save_queue_file s in
            save_progress (utcnow w i) s
        | RateLimited msg =>
            let s := _record_channel_failure (utcnow w i) channel_id msg s in
            restart_browser (_calculate_cooldown cfg (n_attempts + 1)) s
        | TransientError msg =>
            let s := _record_channel_failure (utcnow w i) channel_id msg s in
            let s := set_stats (incr_failed (stats s)) s in
            let o := orch s in
            let s := emit EvSaveState
                       (set_orch
                          {| total_channels_scraped :=
                               total_channels_scraped o;
                             total_channels_failed :=
                               total_channels_failed o + 1;
                             browser_restarts := browser_restarts o |} s) in
            let s := set_queue_data
                       (set_current_index (S i) (queue_data s)) s in
            let s := save_queue_file s in
            let s := save_progress (utcnow w i) s in
            (* Check if too many consecutive failures *)
            if 5 <=? _check_consecutive_failures (queue_data s)
            then increment_browser_restarts (restart_browser 30 s)
            else s
        end
  end.

(** [n] iterations of the loop starting at position [i]; the flag is read
    before each entity. *)
Fixpoint scrape_loop (w : World) (cfg : Config) (n i : nat) (s : RunState)
  : option PyExn * RunState :=
  match n with
  | O => (None, s)
  | S n' =>
      if shutdown_requested w i then (Some GracefulExit, s)
      else scrape_loop w cfg n' (S i) (loop_body w cfg i s)
  end.

(** What [run_scraping] returns or raises, and the state it leaves. *)
Record RunResult := {
  returned : Py Stats;
  final : RunState
}.

(** The locals of [run_scraping] once both documents are loaded and
    [update_scraping_status('running', ...)] has saved the state file. *)
Definition loaded_state (o : OrchStats) (d : Disk) (q : QueueData)
    (p : Progress) : RunState :=
  {| queue_data := q; progress := p; stats := zero_stats;
     channels_since_restart := 0; orch := o; disk := d;
     trace := [EvSaveState] |}.

(** The [finally] block: cleanup, final save of both documents, status
    update. *)
Definition finally_block (now : string) (s : RunState) : RunState :=
  let s := emit EvCleanup s in
  let s := save_queue_file s in
  let s := save_progress now s in
  emit EvSaveState s.

(** [run_scraping(queue_file)].  The [finally] block runs on normal
    completion and on [GracefulExit]; the early return on an empty queue
    comes before the [try]. *)
Definition run_scraping (w : World) (cfg : Config) (o : OrchStats) (d : Disk)
  : RunResult :=
  match load_queue_file (queue_file d), load_progress (progress_file d) with
  | inl e, _ | _, inl e =>
      {| returned := inl e;
         final := loaded_state o d default_queue default_progress |}
  | inr q, inr p =>
      match channels q with
      | [] => {| returned := inr zero_stats; final := loaded_state o d q p |}
      | _ :: _ =>
          let total_channels := length (channels q) in
          let start_index := current_index q in
          let s := emit EvStartBrowser (loaded_state o d q p) in
          let '(raised, s) :=
            scrape_loop w cfg (total_channels - start_index) start_index s in
          let s := finally_block (utcnow w total_channels) s in
          {| returned := match raised with
                         | Some e => inl e
                         | None => inr (stats s)
                         end;
             final := s |}
      end
  end.

(** The state after [k] iterations of a run whose loop starts in [s0]
    ([start_index] is the queue's [current_index], as in the source). *)
Definition state_after (w : World) (cfg : Config) (k : nat) (s0 : RunState)
  : RunState :=
  snd (scrape_loop w cfg k (current_index (queue_data s0)) s0).

(** The number of scraper calls among the actions. *)
Definition is_scrape (e : Event) : bool :=
  match e with EvScrape _ _ => true | _ => false end.

Definition scrape_calls (t : list Event) : nat :=
  length (List.filter is_scrape t).

(** The positions of the scraper calls among the actions. *)
Definition scrape_positions (t : list Event) : list nat :=
  omap (λ e, match e with EvScrape i _ => Some i | _ => None end) t.

(** ** The discovery stage: [YouTubeChannelDiscovery.discover_channels] *)

(** The discovery progress document, restricted to the keys the loop reads
    or writes.  [completed_queries] is a Python [set] in the loop and is
    written as [list(completed_queries)], whose order is unspecified; it is
    a finite set here.  Discovered channels are represented by their
    identifiers. *)
Record DiscoveryDoc := {
  current_query_index : nat;
  completed_queries : gset string;
  failed_queries : gmap string Z;
  discovered_channels : list string;
  completed_flag : bool
}.

(** The local variables of [discover_channels], the progress file and the
    searches issued so far.  [progress_data['failed_queries']] is the
    object [failed_queries] and [progress_data['discovered_channels']] is
    the object [all_channels] (bound once, mutated in place), so those two
    entries of [progress_data] have no field of their own;
    [progress_data['current_query_index']] and
    [progress_data['completed_queries']] are assigned explicitly and do. *)
Record DiscState := {
  l_completed_queries : gset string;
  l_failed_queries : gmap string Z;
  l_all_channels : list string;
  pd_current_query_index : nat;
  pd_completed_queries : gset string;
  pd_completed_flag : bool;
  saved : option DiscoveryDoc;
  searches : list (nat * string)
}.

(** [self._save_progress(progress_data, progress_path)]: the whole document
    as it stands is written.  (A failing write is logged and ignored by the
    source; writes succeed here.) *)
Definition _save_progress (s : DiscState) : DiscState :=
  {| l_completed_queries := l_completed_queries s;
     l_failed_queries := l_failed_queries s;
     l_all_channels := l_all_channels s;
     pd_current_query_index := pd_current_query_index s;
     pd_completed_queries := pd_completed_queries s;
     pd_completed_flag := pd_completed_flag s;
     saved := Some {| current_query_index := pd_current_query_index s;
                      completed_queries := pd_completed_queries s;
                      failed_queries := l_failed_queries s;
                      discovered_channels := l_all_channels s;
                      completed_flag := pd_completed_flag s |};
     searches := searches s |}.

(** The search queries: [search_terms] if given, else one query per
    (category, location) pair. *)
Definition build_queries (search_terms categories locations : list string)
  : list string :=
  match search_terms with
  | _ :: _ => search_terms
  | [] =>
      flat_map
        (λ category,
           map (λ location, location +:+ " " +:+ category +:+ " influencer")
               locations)
        categories
  end.

(** [self._search_youtube_directly(query, max_per_search)].  Its whole body
    sits in one [try] whose handler logs and falls through to the [return]:
<<
    channels = []
    try:
        await self.page.goto(search_url, ...)
        ...
        await self.page.wait_for_selector(...)
        ...
        for element in channel_elements[:max_results]:
            try:
                ...
                channels.append(channel_info)
            except Exception as e:
                continue
    except Exception as e:
        logger.error(f"Error searching YouTube: {e}")
    return channels
>>
    [page i query] is the page interaction of the search at position [i]:
    [Some found] when navigation and waiting go through and the loop over
    the results appends [found]; [None] when a step before that loop raises
    an [Exception], with nothing appended yet.  The function itself raises
    no [Exception]. *)
Definition _search_youtube_directly
    (page : nat → string → option (list string))
    (i : nat) (query : string) : list string :=
  match page i query with
  | Some found => found
  | None => []
  end.

(** One iteration of [for i in range(start_index, len(queries))].  Neither
    call inside the [try] of the loop body raises an [Exception]
    ([_search_youtube_directly] and [_save_progress] both catch it), so the
    clause [except Exception] after it, which would count the query in
    [failed_queries] and save, is never entered. *)
Definition discovery_body
    (page : nat → string → option (list string))
    (use_youtube_search : bool)
    (queries : list string) (i : nat) (s : DiscState) : DiscState :=
  match queries !! i with
  | None => s                         (* not reached: i < len(queries) *)
  | Some query =>
      (* Skip if already completed *)
      if decide (query ∈ l_completed_queries s) then s
      else
        let done := {[ query ]} ∪ l_completed_queries s in
        _save_progress
          {| l_completed_queries := done;
             l_failed_queries := l_failed_queries s;
             l_all_channels :=
               if use_youtube_search
               then l_all_channels s ++ _search_youtube_directly page i query
               else l_all_channels s;
             pd_current_query_index := S i;
             pd_completed_queries := done;
             pd_completed_flag := pd_completed_flag s;
             saved := saved s;
             searches :=
               if use_youtube_search then searches s ++ [(i, query)]
               else searches s |}
  end.

Fixpoint discovery_loop
    (page : nat → string → option (list string))
    (use_youtube_search : bool)
    (queries : list string) (n i : nat) (s : DiscState) : DiscState :=
  match n with
  | O => s
  | S n' =>
      discovery_loop page use_youtube_search queries n' (S i)
        (discovery_body page use_youtube_search queries i s)
  end.

(** The state in which the loop starts: resumed from a loaded progress
    document, or fresh.  The resumed document is what the progress file holds
    before the run. *)
Definition discovery_start (resumed : option DiscoveryDoc) : DiscState :=
  match resumed with
  | Some pr =>
      {| l_completed_queries := completed_queries pr;
         l_failed_queries := failed_queries pr;
         l_all_channels := discovered_channels pr;
         pd_current_query_index := current_query_index pr;
         pd_completed_queries := completed_queries pr;
         pd_completed_flag := false;
         saved := Some pr;
         searches := [] |}
  | None =>
      {| l_completed_queries := ∅;
         l_failed_queries := ∅;
         l_all_channels := [];
         pd_current_query_index := 0;
         pd_completed_queries := ∅;
         pd_completed_flag := false;
         saved := None;
         searches := [] |}
  end.

(** The state when the [for] loop of [discover_channels] has run through. *)
Definition discover_loop_end
    (page : nat → string → option (list string))
    (use_youtube_search : bool)
    (queries : list string) (resumed : option DiscoveryDoc) : DiscState :=
  let s := discovery_start resumed in
  let start_index := pd_current_query_index s in
  discovery_loop page use_youtube_search queries
    (length queries - start_index) start_index s.

(** [discover_channels]: the loop, then [progress_data['completed'] = True]
    and a last save. *)
Definition discover_channels
    (page : nat → string → option (list string))
    (use_youtube_search : bool)
    (queries : list string) (resumed : option DiscoveryDoc) : DiscState :=
  let s := discover_loop_end page use_youtube_search queries resumed in
  _save_progress
    {| l_completed_queries := l_completed_queries s;
       l_failed_queries := l_failed_queries s;
       l_all_channels := l_all_channels s;
       pd_current_query_index := pd_current_query_index s;
       pd_completed_queries := pd_completed_queries s;
       pd_completed_flag := true;
       saved := saved s;
       searches := searches s |}.

(** Restarts among the actions: a [start_browser] that follows a [cleanup]
    (close, then reopen). *)
Fixpoint restarts_from (closed : bool) (t : list Event) : nat :=
  match t with
  | [] => 0
  | EvCleanup :: t' => restarts_from true t'
  | EvStartBrowser :: t' =>
      ((if closed then 1 else 0) + restarts_from false t')%nat
  | _ :: t' => restarts_from closed t'
  end.

Definition forced_restarts (t : list Event) : nat := restarts_from false t.

(** Whether an action writes the queue file or the progress file. *)
Definition is_queue_write (e : Event) : bool :=
  match e with EvSaveQueue _ => true | _ => false end.
Definition is_progress_write (e : Event) : bool :=
  match e with EvSaveProgress _ => true | _ => false end.

(** An identifier at position [j] is accounted for in state [s]: it is in
    the queue's [completed] list, or a key of its [failed] map, or passes the
    skip rule ([is_channel_completed]), or the scraper reports it as
    skipped. *)
Definition accounted_for (w : World) (s : RunState) (j : nat) (id : string)
  : Prop :=
  id ∈ completed (queue_data s)
  ∨ is_Some (failed (queue_data s) !! id)
  ∨ is_channel_completed id (progress s) (output_dir (disk s)) = true
  ∨ ∃ msg, scrape_channel w j id = Skipped msg.

(** An entity that the loop passes over before calling the scraper: it
    passes the skip rule or has used up its retry budget. *)
Definition passed_over (cfg : Config) (s : RunState) (id : string) : Prop :=
  is_channel_completed id (progress s) (output_dir (disk s)) = true
  ∨ max_channel_retries cfg ≤ failed_attempts (queue_data s) id.

(** Every position between the cursor and the loop variable [i] holds an
    entity that is passed over. *)
Definition behind_cursor_passed_over (cfg : Config) (i : nat) (s : RunState)
  : Prop :=
  ∀ j id, (current_index (queue_data s) ≤ j < i)%nat →
          channels (queue_data s) !! j = Some id → passed_over cfg s id.

(** ** Concrete runs *)

Definition no_orch_stats : OrchStats :=
  {| total_channels_scraped := 0; total_channels_failed := 0;
     browser_restarts := 0 |}.

(** A checkpoint store holding a newly created queue file (as
    [create_queue_file] writes it), no progress file and an empty output
    directory. *)
Definition fresh_disk (chans : list string) : Disk :=
  {| queue_file := Document {| channels := chans; completed := [];
                               failed := ∅; current_index := 0 |};
     progress_file := Missing;
     output_dir := ∅ |}.

(** A world in which the scraper answers by position, nobody requests a
    shutdown and the scraper writes into the checked output directory. *)
Definition world_of (answer : nat → string → Outcome) (now : nat → string)
  : World :=
  {| scrape_channel := answer;
     shutdown_requested := λ _, false;
     utcnow := now;
     scraper_dir_is_output_dir := true |}.

(** [Success] for position 0, [NotFound] for position 1, [RateLimited]
    afterwards. *)
Definition scenario_world (now : nat → string) (msg_b msg_c : string)
  : World :=
  world_of (λ i id, match i with
                    | O => Success id
                    | S O => NotFound msg_b
                    | _ => RateLimited msg_c
                    end) now.

Definition clock0 : nat → string := λ _, "2025-12-08T00:00:00+00:00".

(** Six entities on a new checkpoint store, every page broken. *)
Definition six_ids : list string := ["a"; "b"; "c"; "d"; "e"; "f"].

Definition six_start : RunState :=
  emit EvStartBrowser
    (loaded_state no_orch_stats (fresh_disk six_ids)
       {| channels := six_ids; completed := []; failed := ∅;
          current_index := 0 |} default_progress).

Definition broken_world : World :=
  scraper_world (λ _ _, PageBroken "timeout") (λ _, false) clock0 true.

(** * Properties *)

(** ** Backoff *)

Lemma pow2_exceeds (n : Z) : 0 ≤ n → n < 2 ^ n.
Proof. intros Hn. apply Z.pow_gt_lin_r; lia. Qed.

Lemma pow_base_mono (m n : Z) : 2 ≤ m → 0 ≤ n → 2 ^ n ≤ m ^ n.
Proof. intros Hm Hn. apply Z.pow_le_mono_l. lia. Qed.

(** C1. [_calculate_cooldown] depends on the configuration only through
    base, multiplier and ceiling; for every attempt at least 1 it is
    [min (base * multiplier ^ (attempt - 1)) max_cooldown]; it is [base] at
    attempt 1 and [base * multiplier] at attempt 2 as long as these are under
    the ceiling, never exceeds the ceiling, and is the ceiling itself for
    every large enough attempt once the sequence grows (base at least 1,
    multiplier at least 2); with 60, 2, 600 the first five values are
    60, 120, 240, 480, 600. *)
Theorem calculate_cooldown_backoff (cfg : Config) (attempt : Z) :
  1 ≤ attempt →
  let base := cooldown_after_failure cfg in
  let multiplier := cooldown_multiplier cfg in
  let ceiling := max_cooldown cfg in
  _calculate_cooldown cfg attempt
    = Z.min (base * multiplier ^ (attempt - 1)) ceiling
  ∧ (∀ cfg', cooldown_after_failure cfg' = base →
             cooldown_multiplier cfg' = multiplier →
             max_cooldown cfg' = ceiling →
             _calculate_cooldown cfg' attempt = _calculate_cooldown cfg attempt)
  ∧ (base ≤ ceiling → _calculate_cooldown cfg 1 = base)
  ∧ (base * multiplier ≤ ceiling → _calculate_cooldown cfg 2 = base * multiplier)
  ∧ _calculate_cooldown cfg attempt ≤ ceiling
  ∧ (1 ≤ base → 2 ≤ multiplier → ceiling < attempt →
     _calculate_cooldown cfg attempt = ceiling)
  ∧ map (_calculate_cooldown initial_config) [1; 2; 3; 4; 5]
    = [60; 120; 240; 480; 600].
Proof.
  intros Hatt base multiplier ceiling.
  unfold _calculate_cooldown. fold base multiplier ceiling.
  repeat split.
  - intros cfg' -> -> ->. reflexivity.
  - intros Hb. change (1 - 1) with 0. rewrite Z.pow_0_r. lia.
  - intros Hb. change (2 - 1) with 1. rewrite Z.pow_1_r. lia.
  - lia.
  - intros Hbase Hmul Hbig.
    assert (attempt - 1 < 2 ^ (attempt - 1)) by (apply pow2_exceeds; lia).
    assert (2 ^ (attempt - 1) ≤ multiplier ^ (attempt - 1))
      by (apply pow_base_mono; lia).
    apply Z.min_r. nia.
Qed.

Lemma calculate_cooldown_backoff_witness :
  _calculate_cooldown initial_config 4 = Z.min (60 * 2 ^ (4 - 1)) 600
  ∧ _calculate_cooldown initial_config 4 ≤ 600.
Proof.
  destruct (calculate_cooldown_backoff initial_config 4 ltac:(lia))
    as (Hformula & _ & _ & _ & Hceil & _).
  split; [exact Hformula | exact Hceil].
Defined.

(** ** Queue checkpoint loader *)

(** C10. For a queue file that is missing, unreadable or not valid JSON,
    [load_queue_file] does not raise: it returns the default document, with
    no channels, no completed entries, no failure records and index 0. *)
Theorem load_queue_file_defaults (f : FileState QueueData) :
  (f = Missing ∨ f = Unreadable ∨ ∃ raw, f = Garbled raw) →
  load_queue_file f = inr default_queue
  ∧ channels default_queue = []
  ∧ completed default_queue = []
  ∧ failed default_queue = ∅
  ∧ current_index default_queue = 0%nat.
Proof.
  intros [-> | [-> | [raw ->]]]; repeat split; reflexivity.
Qed.

Lemma load_queue_file_defaults_witness :
  load_queue_file (Garbled "{not json") = inr default_queue.
Proof.
  apply (load_queue_file_defaults (Garbled "{not json")).
  right; right. exists "{not json". reflexivity.
Defined.

(** ** The cursor of the scraping stage *)

(** Projections through the state updates. *)
Lemma queue_data_emit e s : queue_data (emit e s) = queue_data s.
Proof. reflexivity. Qed.

Lemma queue_data_restart secs s :
  queue_data (restart_browser secs s) = queue_data s.
Proof. reflexivity. Qed.

Lemma record_failure_cursor now id err s :
  current_index (queue_data (_record_channel_failure now id err s))
  = current_index (queue_data s).
Proof. reflexivity. Qed.

Lemma record_failure_channels now id err s :
  channels (queue_data (_record_channel_failure now id err s))
  = channels (queue_data s).
Proof. reflexivity. Qed.

Section Cursor.

Context (w : World) (cfg : Config).

(** An iteration either leaves the cursor or sets it to [i + 1]. *)
Lemma loop_body_cursor i s :
  current_index (queue_data (loop_body w cfg i s))
    = current_index (queue_data s)
  ∨ current_index (queue_data (loop_body w cfg i s)) = S i.
Proof.
  unfold loop_body.
  repeat case_match; simpl; auto.
Qed.

(** The list of channels is never changed. *)
Lemma loop_body_channels i s :
  channels (queue_data (loop_body w cfg i s)) = channels (queue_data s).
Proof.
  unfold loop_body.
  repeat case_match; simpl; auto.
Qed.

Lemma loop_body_cursor_bounds i s :
  (current_index (queue_data s) ≤ i)%nat →
  (current_index (queue_data s)
     ≤ current_index (queue_data (loop_body w cfg i s)) ≤ S i)%nat.
Proof.
  intros Hle. destruct (loop_body_cursor i s) as [-> | ->]; lia.
Qed.

Lemma scrape_loop_cursor_bounds n : ∀ i s,
  (current_index (queue_data s) ≤ i)%nat →
  (current_index (queue_data s)
     ≤ current_index (queue_data (snd (scrape_loop w cfg n i s)))
     ≤ i + n)%nat.
Proof.
  induction n as [|n IH]; intros i s Hle; simpl.
  - lia.
  - destruct (shutdown_requested w i); simpl; [lia|].
    pose proof (loop_body_cursor_bounds i s Hle) as [Hlo Hhi].
    specialize (IH (S i) (loop_body w cfg i s) Hhi). lia.
Qed.

(** Running [n + m] iterations is running [n] and then, unless the run was
    interrupted, [m] more. *)
Lemma scrape_loop_add n m : ∀ i s,
  scrape_loop w cfg (n + m) i s
  = match scrape_loop w cfg n i s with
    | (Some e, s') => (Some e, s')
    | (None, s') => scrape_loop w cfg m (i + n) s'
    end.
Proof.
  induction n as [|n IH]; intros i s; simpl.
  - by rewrite Nat.add_0_r.
  - destruct (shutdown_requested w i); [done|].
    rewrite IH. by rewrite Nat.add_succ_r.
Qed.

(** C2. In a run whose loop starts at the queue's [current_index], whatever
    the outcomes and whenever a shutdown is requested, the cursor after
    [k1] iterations is at most the cursor after any later number [k2] of
    iterations: [current_index] never decreases. *)
Theorem current_index_monotone (s0 : RunState) (k1 k2 : nat) :
  (k1 ≤ k2)%nat →
  (current_index (queue_data (state_after w cfg k1 s0))
     ≤ current_index (queue_data (state_after w cfg k2 s0)))%nat.
Proof.
  intros Hk. unfold state_after.
  set (start := current_index (queue_data s0)).
  replace k2 with (k1 + (k2 - k1))%nat by lia.
  rewrite scrape_loop_add.
  pose proof (scrape_loop_cursor_bounds k1 start s0 (Nat.le_refl _))
    as [_ Hhi].
  destruct (scrape_loop w cfg k1 start s0) as [[e|] s1]; simpl in *.
  - lia.
  - rewrite Nat.add_comm in Hhi.
    pose proof (scrape_loop_cursor_bounds (k2 - k1) (start + k1) s1)
      as Hnext.
    lia.
Qed.

End Cursor.

Lemma current_index_monotone_witness :
  let s0 := emit EvStartBrowser
              (loaded_state no_orch_stats (fresh_disk ["a"; "b"; "c"])
                 {| channels := ["a"; "b"; "c"]; completed := [];
                    failed := ∅; current_index := 0 |} default_progress) in
  let w := scenario_world clock0 "not found" "rate limited" in
  (current_index (queue_data (state_after w initial_config 1 s0))
     ≤ current_index (queue_data (state_after w initial_config 3 s0)))%nat.
Proof.
  intros s0 w. apply (current_index_monotone w initial_config s0 1 3). lia.
Defined.

(** ** Failure outcomes *)

Lemma retry_budget_left cfg q id :
  failed_attempts q id < max_channel_retries cfg →
  (max_channel_retries cfg <=? failed_attempts q id) = false.
Proof. intros H. apply Z.leb_gt. exact H. Qed.

(** Enter the [try] of the loop body: the entity exists, does not pass the
    skip rule and has budget left. *)
Ltac enter_try Hch Hnot Hbudget :=
  unfold loop_body;
  rewrite Hch, Hnot, (retry_budget_left _ _ _ Hbudget).

Lemma record_failure_lookup now id err s :
  ∃ r, failed (queue_data (_record_channel_failure now id err s)) !! id
       = Some r
     ∧ failed_channels (progress (_record_channel_failure now id err s)) !! id
       = Some r
     ∧ attempts r = failed_attempts (queue_data s) id + 1
     ∧ last_error r = err.
Proof.
  unfold _record_channel_failure, failed_attempts. simpl.
  destruct (failed (queue_data s) !! id) as [old|]; eexists;
    rewrite !lookup_insert_eq; repeat split; reflexivity.
Qed.

(** ** Checkpointing *)

(** After [Success], [NotFound] and [TransientError] both files hold the
    documents as they are in memory. *)
Lemma checkpoint_written w cfg i s channel_id :
  channels (queue_data s) !! i = Some channel_id →
  is_channel_completed channel_id (progress s) (output_dir (disk s)) = false →
  failed_attempts (queue_data s) channel_id < max_channel_retries cfg →
  (match scrape_channel w i channel_id with
   | Success _ | NotFound _ | TransientError _ => True
   | _ => False
   end) →
  let s' := loop_body w cfg i s in
  queue_file (disk s') = Document (queue_data s')
  ∧ progress_file (disk s') = Document (progress s').
Proof.
  intros Hch Hnot Hbudget Hout. simpl.
  enter_try Hch Hnot Hbudget.
  destruct (scrape_channel w i channel_id); try contradiction;
    repeat case_match; simpl; split; reflexivity.
Qed.

(** The handler for [RateLimitException], an exception that no statement of
    the scraper raises, changes both documents in memory and writes neither
    file. *)
Lemma rate_limited_writes_nothing w cfg i s channel_id msg :
  channels (queue_data s) !! i = Some channel_id →
  is_channel_completed channel_id (progress s) (output_dir (disk s)) = false →
  failed_attempts (queue_data s) channel_id < max_channel_retries cfg →
  scrape_channel w i channel_id = RateLimited msg →
  let s' := loop_body w cfg i s in
  disk s' = disk s
  ∧ is_Some (failed (queue_data s') !! channel_id)
  ∧ is_Some (failed_channels (progress s') !! channel_id).
Proof.
  intros Hch Hnot Hbudget Hout. simpl.
  enter_try Hch Hnot Hbudget. rewrite Hout.
  unfold _record_channel_failure.
  case_match; simpl; rewrite !lookup_insert_eq; eauto.
Qed.

(** C4.  With the scraper of [youtube_channel_scraper.py], whose call
    returns, raises [ChannelNotFoundException] or lets another exception
    through, every entity for which the scraper is called is followed,
    within its own iteration and after the scraper call, by a write of the
    queue file and a write of the progress file: when the iteration ends,
    before the next entity is started, both files hold the documents as
    they are in memory.  This holds whatever the page gives (success,
    unavailable channel, any other failure) and in whatever state the
    iteration starts. *)
Theorem checkpoint_after_every_entity
    (page : nat → string → Page) (shutdown : nat → bool)
    (now : nat → string) (same_dir : bool)
    (cfg : Config) (i : nat) (s : RunState) (channel_id : string) :
  let w := scraper_world page shutdown now same_dir in
  channels (queue_data s) !! i = Some channel_id →
  is_channel_completed channel_id (progress s) (output_dir (disk s)) = false →
  failed_attempts (queue_data s) channel_id < max_channel_retries cfg →
  let s' := loop_body w cfg i s in
  ∃ before after,
    trace s' = trace s ++ before ++ EvScrape i channel_id :: after
    ∧ EvSaveQueue (queue_data s') ∈ after
    ∧ EvSaveProgress (progress s') ∈ after
    ∧ queue_file (disk s') = Document (queue_data s')
    ∧ progress_file (disk s') = Document (progress s').
Proof.
  intros w Hch Hnot Hbudget. cbv zeta.
  enter_try Hch Hnot Hbudget.
  subst w. cbn [scrape_channel scraper_world].
  destruct (browser_restart_interval cfg <=? channels_since_restart s);
    [exists [EvCleanup; EvSleep 5; EvStartBrowser; EvSaveState] | exists []];
    destruct (page i channel_id) as [|error|data_id]; cbn [scraper_outcome];
    repeat case_match; simpl; rewrite <- ?app_assoc; simpl;
    (eexists; split; [reflexivity|]);
    split_and!; try reflexivity; set_solver.
Qed.

Lemma checkpoint_after_every_entity_witness :
  let w := broken_world in
  let s' := loop_body w initial_config 0 six_start in
  queue_file (disk s') = Document (queue_data s')
  ∧ progress_file (disk s') = Document (progress s').
Proof.
  intros w s'.
  destruct (checkpoint_after_every_entity (λ _ _, PageBroken "timeout")
              (λ _, false) clock0 true initial_config 0 six_start "a")
    as (before & after & _ & _ & _ & Hq & Hp).
  - reflexivity.
  - reflexivity.
  - vm_compute. reflexivity.
  - split; [exact Hq|exact Hp].
Defined.

(** ** The end-to-end scenario *)

(** C7 as stated fails: in the run over [["a"; "b"; "c"]] from index 0 on a
    new checkpoint store, the failed map is not a map with the single key
    "b" ("c" has a record too). *)
Lemma end_to_end_failed_map_keeps_c :
  let r := run_scraping (scenario_world clock0 "not found" "rate limited")
             initial_config no_orch_stats (fresh_disk ["a"; "b"; "c"]) in
  ¬ (∃ rec_b, failed (queue_data (final r)) = {[ "b" := rec_b ]}).
Proof.
  intros r [rec_b Hmap].
  apply (f_equal (λ m : gmap string FailureRecord, m !! "c")) in Hmap.
  vm_compute in Hmap. discriminate Hmap.
Qed.

(** C7 (amended).  After one pass over [["a"; "b"; "c"]] with [Success],
    [NotFound], [RateLimited]: [completed] is [["a"]]; the failed map holds
    a record with one attempt for "b" and one for "c"; [current_index] is 2;
    the browser was restarted once; the returned stats are success 1,
    failed 1, skipped 0.  The [session_stats] of the progress document are
    not touched by this stage. *)
Theorem end_to_end_scenario (now : nat → string) (msg_b msg_c : string) :
  let r := run_scraping (scenario_world now msg_b msg_c)
             initial_config no_orch_stats (fresh_disk ["a"; "b"; "c"]) in
  completed (queue_data (final r)) = ["a"]
  ∧ failed (queue_data (final r))
    = <[ "b" := {| attempts := 1; last_error := msg_b;
                   first_failed_at := now 1%nat |} ]>
        {[ "c" := {| attempts := 1; last_error := msg_c;
                     first_failed_at := now 2%nat |} ]}
  ∧ current_index (queue_data (final r)) = 2%nat
  ∧ forced_restarts (trace (final r)) = 1%nat
  ∧ returned r = inr {| stat_success := 1; stat_failed := 1;
                        stat_skipped := 0 |}
  ∧ session_stats (progress (final r)) = zero_stats
  ∧ queue_file (disk (final r)) = Document (queue_data (final r)).
Proof.
  vm_compute. repeat split; reflexivity.
Qed.

(** ** Identifiers below the cursor *)

(** C8 as stated fails: the scraper reports the only entity of the queue as
    skipped; the cursor moves past it and it is neither completed nor
    failed. *)
Lemma skipped_entity_below_cursor :
  let w := world_of (λ _ _, Skipped "already exists") clock0 in
  let q0 := {| channels := ["a"]; completed := [];
               failed := ∅; current_index := 0 |} in
  let s0 := emit EvStartBrowser
              (loaded_state no_orch_stats (fresh_disk ["a"])
                 q0 default_progress) in
  let q1 := queue_data (state_after w initial_config 1 s0) in
  channels q1 !! O = Some "a"
  ∧ (0 < current_index q1)%nat
  ∧ ("a" ∉ completed q1)
  ∧ failed q1 !! "a" = None.
Proof.
  vm_compute. repeat split; try reflexivity; try lia.
  intros H. inversion H.
Qed.

(** The skip rule only looks at [completed_channels] and the output
    directory, and both only grow. *)
Lemma is_channel_completed_mono id p out p' out' :
  (∀ x, x ∈ completed_channels p → x ∈ completed_channels p') →
  out ⊆ out' →
  is_channel_completed id p out = true →
  is_channel_completed id p' out' = true.
Proof.
  unfold is_channel_completed. intros Hp Hout.
  destruct (decide (id ∈ completed_channels p)) as [Hin|Hnin].
  - intros _. rewrite decide_True; auto.
  - intros Hfile%bool_decide_eq_true.
    destruct (decide (id ∈ completed_channels p')); [done|].
    apply bool_decide_eq_true. set_solver.
Qed.

(** What one iteration does to the four places the accounting looks at. *)
Lemma loop_body_grows w cfg i s :
  let s' := loop_body w cfg i s in
  (∀ x, x ∈ completed (queue_data s) → x ∈ completed (queue_data s'))
  ∧ (∀ x, is_Some (failed (queue_data s) !! x) →
          is_Some (failed (queue_data s') !! x)
          ∨ x ∈ completed (queue_data s'))
  ∧ (∀ x, x ∈ completed_channels (progress s) →
          x ∈ completed_channels (progress s'))
  ∧ output_dir (disk s) ⊆ output_dir (disk s').
Proof.
  simpl. unfold loop_body, _record_channel_failure.
  repeat case_match; simpl; repeat split; intros; auto;
    try (apply elem_of_app; auto; fail);
    try (case_match; set_solver);
    try (left; match goal with
               | |- is_Some (<[?k := _]> _ !! ?x) =>
                   destruct (decide (k = x)) as [->|];
                   [rewrite lookup_insert_eq; eauto
                   |rewrite lookup_insert_ne; auto]
               end; fail).
  all: match goal with
       | |- is_Some (delete ?k _ !! ?x) ∨ _ =>
           destruct (decide (k = x)) as [->|];
           [right; apply elem_of_app; right; apply list_elem_of_singleton;
            reflexivity
           |left; rewrite lookup_delete_ne; auto]
       end.
Qed.

(** Once accounted for, always accounted for. *)
Lemma accounted_for_stable w cfg i s j id :
  accounted_for w s j id → accounted_for w (loop_body w cfg i s) j id.
Proof.
  destruct (loop_body_grows w cfg i s) as (Hc & Hf & Hp & Ho).
  unfold accounted_for. intros [Hin | [Hfail | [Hdone | Hskip]]].
  - left. auto.
  - destruct (Hf id Hfail); auto.
  - right; right; left.
    eapply is_channel_completed_mono; eauto.
  - auto.
Qed.

Lemma failed_attempts_positive q id :
  0 < failed_attempts q id → is_Some (failed q !! id).
Proof.
  unfold failed_attempts. destruct (failed q !! id); [eauto | lia].
Qed.

(** The entity that an iteration visits is accounted for afterwards. *)
Lemma accounted_for_visited w cfg i s id :
  0 < max_channel_retries cfg →
  channels (queue_data s) !! i = Some id →
  accounted_for w (loop_body w cfg i s) i id.
Proof.
  intros Hmax Hch. unfold accounted_for, loop_body. rewrite Hch.
  destruct (is_channel_completed id (progress s) (output_dir (disk s)))
    eqn:Hdone.
  { right; right; left. exact Hdone. }
  destruct (max_channel_retries cfg <=? failed_attempts (queue_data s) id)
    eqn:Hbudget.
  { right; left. simpl. apply failed_attempts_positive.
    apply Z.leb_le in Hbudget. lia. }
  destruct (scrape_channel w i id) eqn:Hout.
  - left. repeat case_match; simpl; apply elem_of_app; right;
      apply list_elem_of_singleton; reflexivity.
  - right; right; right. eauto.
  - right; left. unfold _record_channel_failure.
    repeat case_match; simpl; rewrite lookup_insert_eq; eauto.
  - right; left. unfold _record_channel_failure.
    repeat case_match; simpl; rewrite lookup_insert_eq; eauto.
  - right; left. unfold _record_channel_failure.
    repeat case_match; simpl; rewrite lookup_insert_eq; eauto.
Qed.

Lemma scrape_loop_channels w cfg n : ∀ i s,
  channels (queue_data (snd (scrape_loop w cfg n i s)))
  = channels (queue_data s).
Proof.
  induction n as [|n IH]; intros i s; simpl; [done|].
  destruct (shutdown_requested w i); [done|].
  rewrite IH. apply loop_body_channels.
Qed.

(** Every position before the loop variable stays accounted for. *)
Lemma scrape_loop_accounted w cfg n : ∀ i s,
  0 < max_channel_retries cfg →
  (∀ j id, (j < i)%nat → channels (queue_data s) !! j = Some id →
           accounted_for w s j id) →
  let s' := snd (scrape_loop w cfg n i s) in
  ∀ j id, (j < current_index (queue_data s'))%nat →
          (current_index (queue_data s) ≤ i)%nat →
          channels (queue_data s) !! j = Some id →
          accounted_for w s' j id.
Proof.
  induction n as [|n IH]; intros i s Hmax Hinv; simpl.
  - intros j id Hj Hcur Hch. apply Hinv; [lia|done].
  - destruct (shutdown_requested w i); simpl.
    + intros j id Hj Hcur Hch. apply Hinv; [lia|done].
    + intros j id Hj Hcur Hch.
      pose proof (loop_body_cursor_bounds w cfg i s Hcur) as [_ Hhi].
      apply (IH (S i) (loop_body w cfg i s)); auto.
      * intros j' id' Hj' Hch'. rewrite loop_body_channels in Hch'.
        destruct (decide (j' = i)) as [->|Hne].
        -- by apply accounted_for_visited.
        -- apply accounted_for_stable. apply Hinv; [lia|done].
      * by rewrite loop_body_channels.
Qed.

(** C8 (amended).  With a positive retry budget, in a run that starts from a
    queue whose identifiers below [current_index] are accounted for, every
    identifier below [current_index] stays accounted for after any number of
    iterations: it is in [completed], or a key of [failed], or passes the
    skip rule of the global progress and the output directory, or was
    reported as skipped by the scraper. *)
Theorem below_cursor_accounted_for
    (w : World) (cfg : Config) (s0 : RunState) (k : nat) :
  0 < max_channel_retries cfg →
  (∀ j id, (j < current_index (queue_data s0))%nat →
           channels (queue_data s0) !! j = Some id →
           accounted_for w s0 j id) →
  ∀ j id, (j < current_index (queue_data (state_after w cfg k s0)))%nat →
          channels (queue_data (state_after w cfg k s0)) !! j = Some id →
          accounted_for w (state_after w cfg k s0) j id.
Proof.
  intros Hmax Hinit j id Hj Hch. unfold state_after in *.
  rewrite scrape_loop_channels in Hch.
  by apply scrape_loop_accounted.
Qed.

Lemma below_cursor_accounted_for_witness :
  let w := scenario_world clock0 "not found" "rate limited" in
  let s0 := emit EvStartBrowser
              (loaded_state no_orch_stats (fresh_disk ["a"; "b"; "c"])
                 {| channels := ["a"; "b"; "c"]; completed := [];
                    failed := ∅; current_index := 0 |} default_progress) in
  accounted_for w (state_after w initial_config 3 s0) 1 "b".
Proof.
  intros w s0.
  apply (below_cursor_accounted_for w initial_config s0 3).
  - vm_compute. reflexivity.
  - simpl. intros j id Hj. lia.
  - vm_compute. lia.
  - vm_compute. reflexivity.
Defined.

(** ** The circuit breaker *)

Lemma range_down_cons start stop :
  stop < start → range_down start stop = start :: range_down (start - 1) stop.
Proof.
  intros Hlt. unfold range_down.
  replace (Z.to_nat (start - stop)) with (S (Z.to_nat (start - 1 - stop)))
    by lia.
  simpl. f_equal; [lia|].
  rewrite <- seq_shift, map_map. apply map_ext. intros k. lia.
Qed.

Lemma range_down_nil start stop : start ≤ stop → range_down start stop = [].
Proof.
  intros Hle. unfold range_down.
  replace (Z.to_nat (start - stop)) with O by lia. reflexivity.
Qed.

Lemma range_down_length start stop :
  length (range_down start stop) = Z.to_nat (start - stop).
Proof. unfold range_down. by rewrite length_map, length_seq. Qed.

(** The count never falls below where it starts and grows by at most one
    per position. *)
Lemma count_consecutive_bounds chans fl positions : ∀ c,
  c ≤ count_consecutive chans fl positions c
    ≤ c + Z.of_nat (length positions).
Proof.
  induction positions as [|i rest IH]; intros c; simpl; [lia|].
  repeat case_match; try lia.
  - specialize (IH c). lia.
  - specialize (IH (c + 1)). lia.
Qed.

Lemma count_consecutive_failed chans fl i rest c id :
  0 ≤ i → chans !! Z.to_nat i = Some id → is_Some (fl !! id) →
  count_consecutive chans fl (i :: rest) c
  = count_consecutive chans fl rest (c + 1).
Proof.
  intros Hi Hch Hf. simpl.
  apply lookup_lt_Some in Hch as Hlt.
  destruct (Z.leb_spec (Z.of_nat (length chans)) i); [lia|].
  rewrite Hch. by rewrite decide_True.
Qed.

Lemma count_consecutive_break chans fl i rest c id :
  0 ≤ i → chans !! Z.to_nat i = Some id → fl !! id = None →
  count_consecutive chans fl (i :: rest) c = c.
Proof.
  intros Hi Hch Hf. simpl.
  apply lookup_lt_Some in Hch as Hlt.
  destruct (Z.leb_spec (Z.of_nat (length chans)) i); [lia|].
  rewrite Hch. rewrite decide_False; [done|].
  rewrite Hf. intros [? ?]; discriminate.
Qed.

(** The count is between 0 and 9 on every queue. *)
Lemma check_consecutive_failures_range q :
  0 ≤ _check_consecutive_failures q ≤ 9.
Proof.
  unfold _check_consecutive_failures. case_match; [lia|].
  match goal with
  | |- _ ≤ count_consecutive ?c ?f ?ps 0 ≤ _ =>
      pose proof (count_consecutive_bounds c f ps 0) as Hb
  end.
  rewrite range_down_length in Hb. lia.
Qed.

(** Position 0 is never examined ([range] excludes its stop), so the count
    stays below [current_index]: as long as [current_index] is 5 or less
    the threshold of 5 is not reached, whatever the failed map holds. *)
Lemma check_consecutive_failures_below_cursor (q : QueueData) :
  _check_consecutive_failures q ≤ Z.max 0 (Z.of_nat (current_index q) - 1)
  ∧ ((current_index q ≤ 5)%nat → _check_consecutive_failures q < 5).
Proof.
  assert (Hle : _check_consecutive_failures q
                ≤ Z.max 0 (Z.of_nat (current_index q) - 1)).
  { unfold _check_consecutive_failures. case_match; [lia|].
    match goal with
    | |- count_consecutive ?c ?f ?ps 0 ≤ _ =>
        pose proof (count_consecutive_bounds c f ps 0) as Hb
    end.
    rewrite range_down_length in Hb. lia. }
  split; [exact Hle|]. intros Hcur. lia.
Qed.

(** Five failed entities right below the cursor are all counted when the
    cursor is at 6 or more. *)
Lemma check_consecutive_failures_window q :
  (6 ≤ current_index q)%nat →
  (∀ j, (current_index q - 5 ≤ j < current_index q)%nat →
        ∃ id, channels q !! j = Some id ∧ is_Some (failed q !! id)) →
  ∃ rest,
    _check_consecutive_failures q
    = count_consecutive (channels q) (failed q) rest 5
    ∧ rest = range_down (Z.of_nat (current_index q) - 6)
               (Z.max 0 (Z.of_nat (current_index q) - 10)).
Proof.
  intros Hcur Hwin. unfold _check_consecutive_failures.
  destruct (decide (failed q = ∅)) as [Hempty|_].
  { destruct (Hwin (current_index q - 1)%nat) as (id & _ & [r Hr]); [lia|].
    rewrite Hempty, lookup_empty in Hr. discriminate. }
  set (c := Z.of_nat (current_index q)).
  set (stop := Z.max 0 (c - 10)).
  assert (Hstop : stop ≤ c - 6) by lia.
  assert (Hstep : ∀ k n rest, 1 ≤ k ≤ 5 →
            count_consecutive (channels q) (failed q) ((c - k) :: rest) n
            = count_consecutive (channels q) (failed q) rest (n + 1)).
  { intros k n rest Hk.
    destruct (Hwin (Z.to_nat (c - k))) as (id & Hch & Hf); [lia|].
    eapply count_consecutive_failed; eauto. lia. }
  exists (range_down (c - 6) stop). split; [|reflexivity].
  rewrite (range_down_cons (c - 1)) by lia.
  rewrite (Hstep 1) by lia.
  replace (c - 1 - 1) with (c - 2) by lia.
  rewrite (range_down_cons (c - 2)) by lia.
  rewrite (Hstep 2) by lia.
  replace (c - 2 - 1) with (c - 3) by lia.
  rewrite (range_down_cons (c - 3)) by lia.
  rewrite (Hstep 3) by lia.
  replace (c - 3 - 1) with (c - 4) by lia.
  rewrite (range_down_cons (c - 4)) by lia.
  rewrite (Hstep 4) by lia.
  replace (c - 4 - 1) with (c - 5) by lia.
  rewrite (range_down_cons (c - 5)) by lia.
  rewrite (Hstep 5) by lia.
  replace (c - 5 - 1) with (c - 6) by lia.
  reflexivity.
Qed.

(** From the sixth position on the window is counted: when
    [current_index] is at least 6 and the entities at positions
    [current_index - 5] to [current_index - 1] are all in the failed map,
    the count is at least 5, and exactly 5 when the entity at
    [current_index - 6] is not in the failed map.  When the count on the
    queue that a [TransientError] outcome leaves is 5 or more, the
    iteration ends with a browser restart (cleanup, 30 s, start). *)
Lemma check_consecutive_failures_from_six (q : QueueData) :
  (6 ≤ current_index q)%nat →
  (∀ j, (current_index q - 5 ≤ j < current_index q)%nat →
        ∃ id, channels q !! j = Some id ∧ is_Some (failed q !! id)) →
  5 ≤ _check_consecutive_failures q ≤ 9
  ∧ ((∃ id, channels q !! (current_index q - 6)%nat = Some id
            ∧ failed q !! id = None) →
     _check_consecutive_failures q = 5)
  ∧ (∀ w cfg i s channel_id msg,
       channels (queue_data s) !! i = Some channel_id →
       is_channel_completed channel_id (progress s) (output_dir (disk s))
         = false →
       failed_attempts (queue_data s) channel_id < max_channel_retries cfg →
       scrape_channel w i channel_id = TransientError msg →
       5 ≤ _check_consecutive_failures (queue_data (loop_body w cfg i s)) →
       ∃ before,
         trace (loop_body w cfg i s)
         = before ++ [EvCleanup; EvSleep 30; EvStartBrowser; EvSaveState]).
Proof.
  intros Hcur Hwin.
  destruct (check_consecutive_failures_window q Hcur Hwin)
    as (rest & Hcount & Hrest).
  assert (Hfive : 5 ≤ _check_consecutive_failures q).
  { rewrite Hcount.
    pose proof (count_consecutive_bounds (channels q) (failed q) rest 5).
    lia. }
  split; [|split].
  - pose proof (check_consecutive_failures_range q). lia.
  - intros (id & Hch & Hnone). rewrite Hcount, Hrest.
    set (c := Z.of_nat (current_index q)).
    destruct (decide (current_index q = 6%nat)) as [Hsix|Hmore].
    + rewrite range_down_nil by lia. reflexivity.
    + rewrite range_down_cons by lia.
      eapply count_consecutive_break; eauto; [lia|].
      replace (Z.to_nat (c - 6)) with (current_index q - 6)%nat by lia.
      exact Hch.
  - intros w cfg i s channel_id msg Hch Hnot Hbudget Hout.
    enter_try Hch Hnot Hbudget. rewrite Hout.
    match goal with
    | |- context [if 5 <=? _check_consecutive_failures (queue_data ?x)
                  then _ else _] => set (s1 := x)
    end.
    destruct (5 <=? _check_consecutive_failures (queue_data s1)) eqn:Hgo.
    + intros _. exists (trace s1). simpl.
      rewrite <- !app_assoc. reflexivity.
    + intros Hq. apply Z.leb_gt in Hgo. lia.
Qed.

(** C5 (the first five failures).  Six entities on a new checkpoint store;
    every scraper call fails with a generic exception.  After the fifth
    failure [current_index] is 5 and the entities at positions 0 to 4, that
    is [current_index - 5] to [current_index - 1], are all in the failed
    map; yet the check returns 4, not 5, no browser restart has been
    forced, and the sixth entity is attempted next.  The restart comes
    only after the sixth failure, when the check returns 5. *)
Theorem five_failures_force_no_restart :
  let s5 := state_after broken_world initial_config 5 six_start in
  let s6 := state_after broken_world initial_config 6 six_start in
  current_index (queue_data s5) = 5%nat
  ∧ Forall (λ id, is_Some (failed (queue_data s5) !! id))
      (take 5 (channels (queue_data s5)))
  ∧ _check_consecutive_failures (queue_data s5) = 4
  ∧ forced_restarts (trace s5) = 0%nat
  ∧ (∃ rest, trace s6 = trace s5 ++ EvScrape 5 "f" :: rest)
  ∧ _check_consecutive_failures (queue_data s6) = 5
  ∧ forced_restarts (trace s6) = 1%nat.
Proof.
  vm_compute. split_and!; try reflexivity.
  - repeat constructor; eauto.
  - eexists. reflexivity.
Qed.

(** ** The discovery cursor *)

(** C6 (a failing search).  One query on a new progress file; its search
    fails (the page interaction raises).  The query is searched once and
    the cursor is advanced past it, but the failure is not counted: the
    persisted document has the query among the completed queries, with
    cursor 1 and no channels, and [failed_queries] is still empty, not
    [{query: 1}]. *)
Lemma failed_search_not_counted :
  let query := "India tech influencer" in
  let s := discover_channels (λ _ _, None) true [query] None in
  searches s = [(O, query)]
  ∧ saved s = Some {| current_query_index := 1;
                      completed_queries := {[ query ]};
                      failed_queries := ∅;
                      discovered_channels := [];
                      completed_flag := true |}
  ∧ (failed_queries <$> saved s) ≠ Some {[ query := 1 ]}.
Proof.
  split_and!.
  - reflexivity.
  - vm_compute. reflexivity.
  - intros H. vm_compute in H. discriminate H.
Qed.

Section Discovery.

Context (page : nat → string → option (list string)).
Context (queries : list string).

(** What one iteration issues: nothing, or one search for the query at
    position [i], which was not completed. *)
Lemma discovery_body_issue i s :
  l_completed_queries s
    ⊆ l_completed_queries (discovery_body page true queries i s)
  ∧ l_failed_queries (discovery_body page true queries i s)
    = l_failed_queries s
  ∧ ∃ issued,
      searches (discovery_body page true queries i s)
      = searches s ++ issued
      ∧ Forall (λ p, fst p = i ∧ queries !! i = Some (snd p)
                     ∧ snd p ∉ l_completed_queries s) issued.
Proof.
  unfold discovery_body.
  destruct (queries !! i) as [query|] eqn:Hq;
    [|split_and!; [done|done|exists []; by rewrite app_nil_r]].
  destruct (decide (query ∈ l_completed_queries s));
    [split_and!; [done|done|exists []; by rewrite app_nil_r]|].
  simpl. split_and!; [apply union_subseteq_r|done|].
  exists [(i, query)]. split; [done|]. repeat constructor; done.
Qed.

Lemma discovery_loop_issue n : ∀ i s,
  l_failed_queries (discovery_loop page true queries n i s)
  = l_failed_queries s
  ∧ ∃ later,
    searches (discovery_loop page true queries n i s) = searches s ++ later
    ∧ Forall (λ p, (i ≤ fst p)%nat ∧ queries !! fst p = Some (snd p)
                   ∧ snd p ∉ l_completed_queries s) later.
Proof.
  induction n as [|n IH]; intros i s; simpl.
  - split; [done|]. exists []. by rewrite app_nil_r.
  - destruct (discovery_body_issue i s)
      as (Hgrow & Hfail & issued & Hissued & Hat).
    destruct (IH (S i) (discovery_body page true queries i s))
      as (Hfail' & later & Hlater & Hall).
    split; [congruence|].
    exists (issued ++ later). split.
    + by rewrite Hlater, Hissued, app_assoc.
    + apply Forall_app. split.
      * eapply Forall_impl; [exact Hat|]. simpl.
        intros p (-> & Hq & Hnew). split; [lia|]. split; [exact Hq|exact Hnew].
      * eapply Forall_impl; [exact Hall|]. simpl.
        intros p (Hle & Hq & Hnew). split; [lia|]. split; [exact Hq|].
        intros Hin. apply Hnew, Hgrow, Hin.
Qed.

End Discovery.

(** What an attempt leaves in general.  For a query attempted at position
    [i], whether its search succeeds or fails (the page interaction
    raises): the query is searched once; the persisted document has
    [current_query_index] at [i + 1], the query among the completed
    queries, the channels found (none for a failed search) appended, and
    [failed_queries] as it was.  In the rest of the run [failed_queries]
    stays as it was and every later search is at a position above [i] and
    for another query: the query is not retried. *)
Theorem discovery_cursor_after_attempt
    (page : nat → string → option (list string))
    (queries : list string) (i : nat) (s : DiscState) (query : string) :
  queries !! i = Some query →
  query ∉ l_completed_queries s →
  let s' := discovery_body page true queries i s in
  let found := _search_youtube_directly page i query in
  searches s' = searches s ++ [(i, query)]
  ∧ saved s' = Some {| current_query_index := S i;
                       completed_queries :=
                         {[ query ]} ∪ l_completed_queries s;
                       failed_queries := l_failed_queries s;
                       discovered_channels := l_all_channels s ++ found;
                       completed_flag := pd_completed_flag s |}
  ∧ (page i query = None → found = [])
  ∧ (∀ n,
       let s'' := discovery_loop page true queries n (S i) s' in
       l_failed_queries s'' = l_failed_queries s
       ∧ ∃ later, searches s'' = searches s' ++ later
                  ∧ Forall (λ p, (i < fst p)%nat ∧ snd p ≠ query) later).
Proof.
  intros Hq Hfresh s' found.
  assert (Hbody : s' = discovery_body page true queries i s) by reflexivity.
  unfold discovery_body in Hbody.
  rewrite Hq, decide_False in Hbody by exact Hfresh.
  split_and!.
  - rewrite Hbody. reflexivity.
  - rewrite Hbody. reflexivity.
  - intros Hraise. subst found. unfold _search_youtube_directly.
    by rewrite Hraise.
  - intros n s''. subst s''.
    destruct (discovery_loop_issue page queries n (S i) s')
      as (Hfail & later & Hlater & Hall).
    split; [rewrite Hfail, Hbody; reflexivity|].
    exists later. split; [exact Hlater|].
    eapply Forall_impl; [exact Hall|]. simpl.
    intros p (Hle & _ & Hnew). split; [lia|].
    intros Heq. apply Hnew. rewrite Heq, Hbody. simpl.
    apply elem_of_union_l, elem_of_singleton. reflexivity.
Qed.

Lemma discovery_cursor_after_attempt_witness :
  let page : nat → string → option (list string) := λ _ _, None in
  let s' := discovery_body page true ["India tech influencer"] 0
              (discovery_start None) in
  current_query_index <$> saved s' = Some 1%nat
  ∧ failed_queries <$> saved s' = Some ∅.
Proof.
  intros page s'.
  destruct (discovery_cursor_after_attempt page ["India tech influencer"]
              0 (discovery_start None) "India tech influencer")
    as (_ & Hsaved & _).
  - reflexivity.
  - simpl. apply not_elem_of_empty.
  - fold s' in Hsaved. rewrite Hsaved. split; reflexivity.
Defined.

(** ** Re-running the scraping stage *)

(** C9 as stated fails: in the first run "c" is rate limited; the second
    run over the files the first one left calls the scraper for "c" again,
    and its counts differ from the first run's. *)
Lemma rerun_scrapes_rate_limited_again :
  let run1 := run_scraping (world_of (λ _ _, RateLimited "429") clock0)
                initial_config no_orch_stats (fresh_disk ["c"]) in
  let run2 := run_scraping (world_of (λ _ id, Success id) clock0)
                initial_config no_orch_stats (disk (final run1)) in
  returned run1 = inr zero_stats
  ∧ scrape_calls (trace (final run2)) = 1%nat
  ∧ returned run2 = inr {| stat_success := 1; stat_failed := 0;
                           stat_skipped := 0 |}.
Proof. vm_compute. repeat split; reflexivity. Qed.

Lemma load_queue_file_total f : ∃ q, load_queue_file f = inr q.
Proof. destruct f; eexists; reflexivity. Qed.

Lemma load_progress_total f : ∃ p, load_progress f = inr p.
Proof. destruct f; eexists; reflexivity. Qed.

(** An entity that is passed over only moves a counter. *)
Lemma loop_body_passed_over w cfg i s :
  (∀ id, channels (queue_data s) !! i = Some id → passed_over cfg s id) →
  ∃ st, loop_body w cfg i s = set_stats st s
        ∧ stat_success st = stat_success (stats s).
Proof.
  intros Hover. unfold loop_body.
  destruct (channels (queue_data s) !! i) as [id|] eqn:Hch.
  - destruct (Hover id eq_refl) as [Hdone | Hspent].
    + rewrite Hdone. eexists; split; reflexivity.
    + destruct (is_channel_completed _ _ _);
        [eexists; split; reflexivity|].
      apply Z.leb_le in Hspent. rewrite Hspent.
      eexists; split; reflexivity.
  - exists (stats s). split; [by destruct s|reflexivity].
Qed.

Lemma scrape_loop_passed_over w cfg n : ∀ i s,
  (∀ j id, (i ≤ j < i + n)%nat → channels (queue_data s) !! j = Some id →
           passed_over cfg s id) →
  ∃ st, snd (scrape_loop w cfg n i s) = set_stats st s
        ∧ stat_success st = stat_success (stats s).
Proof.
  induction n as [|n IH]; intros i s Hover; simpl.
  - exists (stats s). split; [by destruct s|reflexivity].
  - destruct (shutdown_requested w i); simpl.
    { exists (stats s). split; [by destruct s|reflexivity]. }
    destruct (loop_body_passed_over w cfg i s) as (st & -> & Hst).
    { intros id Hid. apply (Hover i); [lia|done]. }
    destruct (IH (S i) (set_stats st s)) as (st' & -> & Hst').
    { intros j id Hj Hid. apply (Hover j id); [lia|exact Hid]. }
    exists st'. split; [reflexivity|]. simpl in Hst'. congruence.
Qed.

(** In a run without [RateLimited] outcomes, whatever lies between the
    cursor and the loop variable was passed over. *)
Lemma loop_body_behind_cursor w cfg i s :
  (∀ i id msg, scrape_channel w i id ≠ RateLimited msg) →
  behind_cursor_passed_over cfg i s →
  behind_cursor_passed_over cfg (S i) (loop_body w cfg i s).
Proof.
  intros Hnorl Hinv. unfold behind_cursor_passed_over, loop_body in *.
  destruct (channels (queue_data s) !! i) as [cid|] eqn:Hch.
  2:{ intros j id Hj Hid. destruct (decide (j = i)) as [->|];
        [congruence | apply (Hinv j id); [lia|done]]. }
  destruct (is_channel_completed cid (progress s) (output_dir (disk s)))
    eqn:Hdone.
  { intros j id Hj Hid. change (channels (queue_data s) !! j = Some id) in Hid.
    destruct (decide (j = i)) as [->|].
    - assert (id = cid) as -> by congruence. left. exact Hdone.
    - apply (Hinv j id); [simpl in Hj; lia|done]. }
  destruct (max_channel_retries cfg <=? failed_attempts (queue_data s) cid)
    eqn:Hspent.
  { intros j id Hj Hid. change (channels (queue_data s) !! j = Some id) in Hid.
    destruct (decide (j = i)) as [->|].
    - assert (id = cid) as -> by congruence.
      right. apply Z.leb_le in Hspent. exact Hspent.
    - apply (Hinv j id); [simpl in Hj; lia|done]. }
  destruct (scrape_channel w i cid) eqn:Hout;
    [| | |exfalso; eapply Hnorl; eauto|];
    intros j id Hj; exfalso; revert Hj;
    repeat case_match; simpl; lia.
Qed.

Lemma scrape_loop_behind_cursor w cfg n : ∀ i s s',
  (∀ i id msg, scrape_channel w i id ≠ RateLimited msg) →
  behind_cursor_passed_over cfg i s →
  scrape_loop w cfg n i s = (None, s') →
  behind_cursor_passed_over cfg (i + n) s'.
Proof.
  induction n as [|n IH]; intros i s s' Hnorl Hinv Hrun; simpl in Hrun.
  - injection Hrun as <-. by rewrite Nat.add_0_r.
  - destruct (shutdown_requested w i); [discriminate|].
    rewrite Nat.add_succ_r. apply (IH (S i) (loop_body w cfg i s)); auto.
    by apply loop_body_behind_cursor.
Qed.

(** The [finally] block changes neither the queue document nor what the
    skip rule looks at. *)
Lemma finally_block_keeps now s :
  queue_data (finally_block now s) = queue_data s
  ∧ completed_channels (progress (finally_block now s))
    = completed_channels (progress s)
  ∧ failed_channels (progress (finally_block now s))
    = failed_channels (progress s)
  ∧ output_dir (disk (finally_block now s)) = output_dir (disk s)
  ∧ queue_file (disk (finally_block now s)) = Document (queue_data s)
  ∧ progress_file (disk (finally_block now s))
    = Document (progress (finally_block now s))
  ∧ trace (finally_block now s)
    = trace s ++ [EvCleanup; EvSaveQueue (queue_data s);
                  EvSaveProgress (progress (finally_block now s));
                  EvSaveState].
Proof.
  unfold finally_block. simpl. rewrite <- !app_assoc. repeat split.
Qed.

(** The second run of C9, started on the files a completed first run left:
    its loop passes over every entity. *)
Lemma second_loop_passes_over w1 w2 cfg o1 o2 d q p n s1 now :
  (∀ i id msg, scrape_channel w1 i id ≠ RateLimited msg) →
  scrape_loop w1 cfg n (current_index q)
    (emit EvStartBrowser (loaded_state o1 d q p)) = (None, s1) →
  (length (channels q) ≤ current_index q + n)%nat →
  let s1' := finally_block now s1 in
  let s2 := emit EvStartBrowser
              (loaded_state o2 (disk s1') (queue_data s1') (progress s1')) in
  ∃ st,
    snd (scrape_loop w2 cfg
           (length (channels (queue_data s1')) - current_index (queue_data s1'))
           (current_index (queue_data s1')) s2)
    = set_stats st s2
    ∧ stat_success st = 0%nat.
Proof.
  intros Hnorl Hrun Hlen s1' s2.
  assert (Hinv : behind_cursor_passed_over cfg (current_index q + n) s1).
  { eapply scrape_loop_behind_cursor; [exact Hnorl| |exact Hrun].
    intros j id Hj. simpl in Hj. lia. }
  pose proof (scrape_loop_channels w1 cfg n (current_index q)
                (emit EvStartBrowser (loaded_state o1 d q p))) as Hchans.
  rewrite Hrun in Hchans. simpl in Hchans.
  destruct (scrape_loop_passed_over w2 cfg
              (length (channels (queue_data s1'))
               - current_index (queue_data s1'))
              (current_index (queue_data s1')) s2) as (st & Hst & Hsucc).
  - intros j id Hj Hid. subst s1' s2. simpl in Hj, Hid.
    rewrite Hchans in Hj.
    destruct (Hinv j id) as [Hdone | Hspent]; [lia|exact Hid| |].
    + left. exact Hdone.
    + right. exact Hspent.
  - exists st. split; [exact Hst|]. rewrite Hsucc. reflexivity.
Qed.

(** [run_scraping] on a queue that has channels: the loop, then the
    [finally] block. *)
Lemma run_scraping_loaded w cfg o d q p :
  load_queue_file (queue_file d) = inr q →
  load_progress (progress_file d) = inr p →
  channels q ≠ [] →
  let r := scrape_loop w cfg (length (channels q) - current_index q)
             (current_index q) (emit EvStartBrowser (loaded_state o d q p)) in
  let s := finally_block (utcnow w (length (channels q))) (snd r) in
  run_scraping w cfg o d
  = {| returned := match fst r with
                   | Some e => inl e
                   | None => inr (stats s)
                   end;
       final := s |}.
Proof.
  intros Hq Hp Hne. unfold run_scraping. rewrite Hq, Hp.
  destruct (channels q) as [|c l] eqn:Hch; [done|].
  simpl. destruct (scrape_loop _ _ _ _ _) as [raised s']. reflexivity.
Qed.

(** C9 (amended).  When a first run without [RateLimited] outcomes has
    returned, a second run on the files it left makes no scraper call,
    leaves the queue document ([completed], [failed], [current_index]) and
    the progress document's [completed_channels] and [failed_channels] as
    they were, and reports no success. *)
Theorem rerun_scrapes_nothing
    (w1 w2 : World) (cfg : Config) (o1 o2 : OrchStats) (d : Disk) :
  (∀ i id msg, scrape_channel w1 i id ≠ RateLimited msg) →
  (∃ st, returned (run_scraping w1 cfg o1 d) = inr st) →
  let run1 := run_scraping w1 cfg o1 d in
  let run2 := run_scraping w2 cfg o2 (disk (final run1)) in
  scrape_calls (trace (final run2)) = 0%nat
  ∧ queue_data (final run2) = queue_data (final run1)
  ∧ completed_channels (progress (final run2))
    = completed_channels (progress (final run1))
  ∧ failed_channels (progress (final run2))
    = failed_channels (progress (final run1))
  ∧ (∀ st, returned run2 = inr st → stat_success st = 0%nat).
Proof.
  intros Hnorl [st1 Hret]. cbv zeta.
  destruct (load_queue_file_total (queue_file d)) as [q Hq].
  destruct (load_progress_total (progress_file d)) as [p Hp].
  destruct (decide (channels q = [])) as [Hempty|Hne].
  { (* nothing in the queue: both runs return before the loop *)
    assert (Hrun : ∀ w o, run_scraping w cfg o d
                   = {| returned := inr zero_stats;
                        final := loaded_state o d q p |}).
    { intros w o. unfold run_scraping. rewrite Hq, Hp, Hempty. reflexivity. }
    rewrite (Hrun w1 o1). simpl. rewrite (Hrun w2 o2). simpl.
    repeat split. intros st Hst. inversion Hst. reflexivity. }
  pose proof (run_scraping_loaded w1 cfg o1 d q p Hq Hp Hne) as Hrun1.
  simpl in Hrun1.
  destruct (scrape_loop w1 cfg (length (channels q) - current_index q)
              (current_index q) (emit EvStartBrowser (loaded_state o1 d q p)))
    as [raised s1] eqn:Hloop1.
  simpl in Hrun1. rewrite Hrun1 in Hret. simpl in Hret.
  destruct raised as [e|]; [discriminate|]. clear Hret.
  set (now1 := utcnow w1 (length (channels q))) in *.
  destruct (finally_block_keeps now1 s1)
    as (Hkq & Hkc & Hkf & Hko & Hqf & Hpf & Hkt).
  assert (Hchans : channels (queue_data s1) = channels q).
  { pose proof (scrape_loop_channels w1 cfg
                  (length (channels q) - current_index q) (current_index q)
                  (emit EvStartBrowser (loaded_state o1 d q p))) as H.
    by rewrite Hloop1 in H. }
  destruct (second_loop_passes_over w1 w2 cfg o1 o2 d q p _ s1 now1
              Hnorl Hloop1 ltac:(lia)) as (st & Hloop2 & Hsucc).
  simpl in Hloop2.
  rewrite Hrun1. cbn [final returned].
  assert (Hrun2 := run_scraping_loaded w2 cfg o2
                     (disk (finally_block now1 s1))
                     (queue_data (finally_block now1 s1))
                     (progress (finally_block now1 s1))
                     eq_refl eq_refl
                     ltac:(rewrite Hkq, Hchans; exact Hne)).
  cbv zeta in Hrun2. rewrite Hrun2. clear Hrun2.
  simpl.
  match goal with
  | |- context [scrape_loop w2 cfg ?n ?i ?s] =>
      change (snd (scrape_loop w2 cfg n i s) = set_stats st s) in Hloop2;
      destruct (scrape_loop w2 cfg n i s) as [raised2 s2']
  end.
  simpl in Hloop2. subst s2'. simpl.
  repeat split.
  intros st' Hst'. destruct raised2; simpl in Hst'; [discriminate|].
  inversion Hst'. subst st'. exact Hsucc.
Qed.

Lemma rerun_scrapes_nothing_witness :
  let w := world_of (λ _ id, Success id) clock0 in
  let run1 := run_scraping w initial_config no_orch_stats
                (fresh_disk ["a"; "b"]) in
  let run2 := run_scraping w initial_config no_orch_stats
                (disk (final run1)) in
  scrape_calls (trace (final run2)) = 0%nat.
Proof.
  intros w.
  destruct (rerun_scrapes_nothing w w initial_config no_orch_stats
              no_orch_stats (fresh_disk ["a"; "b"])) as (Hcalls & _).
  - intros i id msg. simpl. discriminate.
  - vm_compute. eexists. reflexivity.
  - exact Hcalls.
Defined.

(** ** Failure outcomes and the next invocation *)

Section Run.

Context (w : World) (cfg : Config).

(** An iteration appends to the actions; among what it appends there is at
    most one scraper call, for position [i] and the entity there, and only
    for an entity that does not pass the skip rule and has budget left. *)
Lemma loop_body_trace i s :
  ∃ evs,
    trace (loop_body w cfg i s) = trace s ++ evs
    ∧ (scrape_positions evs = []
       ∨ scrape_positions evs = [i]
         ∧ ∃ id, channels (queue_data s) !! i = Some id
                 ∧ is_channel_completed id (progress s) (output_dir (disk s))
                   = false
                 ∧ failed_attempts (queue_data s) id
                   < max_channel_retries cfg).
Proof.
  unfold loop_body.
  destruct (channels (queue_data s) !! i) as [id|] eqn:Hch;
    [|exists []; rewrite app_nil_r; auto].
  destruct (is_channel_completed id (progress s) (output_dir (disk s)))
    eqn:Hdone; [exists []; rewrite app_nil_r; auto|].
  destruct (max_channel_retries cfg <=? failed_attempts (queue_data s) id)
    eqn:Hbudget; [exists []; rewrite app_nil_r; auto|].
  apply Z.leb_gt in Hbudget.
  repeat case_match; simpl; rewrite <- ?app_assoc;
    (eexists; split; [reflexivity|]; right; split; [reflexivity|]; eauto).
Qed.

Lemma scrape_positions_app t1 t2 :
  scrape_positions (t1 ++ t2) = scrape_positions t1 ++ scrape_positions t2.
Proof. apply omap_app. Qed.

(** The actions of [n] iterations from position [i]: the scraper calls in
    them are at strictly increasing positions within [[i, i + n)]. *)
Lemma scrape_loop_trace n : ∀ i s,
  ∃ evs,
    trace (snd (scrape_loop w cfg n i s)) = trace s ++ evs
    ∧ StronglySorted lt (scrape_positions evs)
    ∧ Forall (λ j, i ≤ j < i + n)%nat (scrape_positions evs).
Proof.
  induction n as [|n IH]; intros i s; simpl.
  - exists []. rewrite app_nil_r. repeat split; constructor.
  - destruct (shutdown_requested w i); simpl.
    { exists []. rewrite app_nil_r. repeat split; constructor. }
    destruct (loop_body_trace i s) as (evs1 & Hev1 & Hpos1).
    destruct (IH (S i) (loop_body w cfg i s)) as (evs2 & Hev2 & Hsort & Hin).
    exists (evs1 ++ evs2). rewrite Hev2, Hev1, app_assoc.
    split; [reflexivity|]. rewrite scrape_positions_app.
    destruct Hpos1 as [-> | [-> _]]; simpl.
    + split; [exact Hsort|].
      eapply Forall_impl; [exact Hin|]. simpl. lia.
    + split.
      * constructor; [exact Hsort|].
        eapply Forall_impl; [exact Hin|]. simpl. lia.
      * constructor; [lia|].
        eapply Forall_impl; [exact Hin|]. simpl. lia.
Qed.

(** An iteration that leaves the cursor where it was adds nothing to what
    the skip rule looks at. *)
Lemma loop_body_cursor_kept i s :
  (current_index (queue_data s) ≤ i)%nat →
  current_index (queue_data (loop_body w cfg i s))
    = current_index (queue_data s) →
  completed_channels (progress (loop_body w cfg i s))
    = completed_channels (progress s)
  ∧ output_dir (disk (loop_body w cfg i s)) = output_dir (disk s).
Proof.
  unfold loop_body.
  repeat case_match; simpl; intros Hle Hsame; try lia; auto.
Qed.

Lemma scrape_loop_cursor_kept n : ∀ i s,
  (current_index (queue_data s) ≤ i)%nat →
  current_index (queue_data (snd (scrape_loop w cfg n i s)))
    = current_index (queue_data s) →
  completed_channels (progress (snd (scrape_loop w cfg n i s)))
    = completed_channels (progress s)
  ∧ output_dir (disk (snd (scrape_loop w cfg n i s))) = output_dir (disk s).
Proof.
  induction n as [|n IH]; intros i s Hle; simpl; [done|].
  destruct (shutdown_requested w i); simpl; [done|].
  intros Hsame.
  pose proof (loop_body_cursor_bounds w cfg i s Hle) as [Hlo Hhi].
  pose proof (scrape_loop_cursor_bounds w cfg n (S i) (loop_body w cfg i s)
                Hhi) as [Hlo' _].
  assert (Hbody : current_index (queue_data (loop_body w cfg i s))
                  = current_index (queue_data s)) by lia.
  destruct (loop_body_cursor_kept i s Hle Hbody) as [Hc Ho].
  destruct (IH (S i) (loop_body w cfg i s) Hhi) as [Hc' Ho']; [lia|].
  split; congruence.
Qed.

(** The loop from position [i] leaves the cursor where it was or moves it
    beyond [i]. *)
Lemma scrape_loop_cursor_cases n : ∀ i s,
  current_index (queue_data (snd (scrape_loop w cfg n i s)))
    = current_index (queue_data s)
  ∨ (i < current_index (queue_data (snd (scrape_loop w cfg n i s))))%nat.
Proof.
  induction n as [|n IH]; intros i s; simpl; [by left|].
  destruct (shutdown_requested w i); simpl; [by left|].
  destruct (loop_body_cursor w cfg i s) as [Hb | Hb],
    (IH (S i) (loop_body w cfg i s)) as [Hl | Hl]; lia.
Qed.

End Run.

Lemma elem_of_scrape_positions i id t :
  EvScrape i id ∈ t → i ∈ scrape_positions t.
Proof.
  intros Hin. unfold scrape_positions.
  apply list_elem_of_omap. exists (EvScrape i id). split; [exact Hin|done].
Qed.

(** A run only calls the scraper at positions from the loaded cursor on. *)
Lemma run_scraping_from_cursor w cfg o d q i id :
  queue_file d = Document q →
  EvScrape i id ∈ trace (final (run_scraping w cfg o d)) →
  (current_index q ≤ i)%nat.
Proof.
  intros Hq Hin.
  assert (Hload : load_queue_file (queue_file d) = inr q)
    by (rewrite Hq; reflexivity).
  destruct (load_progress_total (progress_file d)) as [p Hp].
  destruct (decide (channels q = [])) as [Hempty|Hne].
  { unfold run_scraping in Hin. rewrite Hload, Hp, Hempty in Hin.
    simpl in Hin. apply list_elem_of_singleton in Hin. discriminate. }
  rewrite (run_scraping_loaded w cfg o d q p Hload Hp Hne) in Hin.
  cbn [final] in Hin.
  destruct (finally_block_keeps (utcnow w (length (channels q)))
              (snd (scrape_loop w cfg (length (channels q) - current_index q)
                      (current_index q)
                      (emit EvStartBrowser (loaded_state o d q p)))))
    as (_ & _ & _ & _ & _ & _ & Htr).
  rewrite Htr in Hin. clear Htr.
  destruct (scrape_loop_trace w cfg (length (channels q) - current_index q)
              (current_index q) (emit EvStartBrowser (loaded_state o d q p)))
    as (evs & Hevs & _ & Hpos).
  rewrite Hevs in Hin.
  apply elem_of_scrape_positions in Hin.
  rewrite !scrape_positions_app in Hin. simpl in Hin.
  rewrite app_nil_r in Hin.
  rewrite Forall_forall in Hpos. apply Hpos in Hin. lia.
Qed.

(** A run whose loaded cursor is at an entity that is not passed over, and
    that is not asked to shut down before it, calls the scraper for it. *)
Lemma run_scraping_scrapes_cursor w cfg o d q p id :
  queue_file d = Document q →
  load_progress (progress_file d) = inr p →
  channels q !! current_index q = Some id →
  is_channel_completed id p (output_dir d) = false →
  failed_attempts q id < max_channel_retries cfg →
  shutdown_requested w (current_index q) = false →
  EvScrape (current_index q) id ∈ trace (final (run_scraping w cfg o d)).
Proof.
  intros Hq Hp Hch Hnot Hbudget Hgo.
  assert (Hload : load_queue_file (queue_file d) = inr q)
    by (rewrite Hq; reflexivity).
  assert (Hne : channels q ≠ []) by (intros E; rewrite E in Hch; done).
  rewrite (run_scraping_loaded w cfg o d q p Hload Hp Hne). cbn [final].
  match goal with
  | |- _ ∈ trace (finally_block ?now ?s) =>
      destruct (finally_block_keeps now s) as (_ & _ & _ & _ & _ & _ & ->)
  end.
  apply elem_of_app. left.
  apply lookup_lt_Some in Hch as Hlt.
  destruct (length (channels q) - current_index q)%nat as [|n] eqn:Hn; [lia|].
  cbn [scrape_loop]. rewrite Hgo.
  set (s0 := emit EvStartBrowser (loaded_state o d q p)).
  destruct (scrape_loop_trace w cfg n (S (current_index q))
              (loop_body w cfg (current_index q) s0)) as (evs & -> & _).
  apply elem_of_app. left.
  unfold loop_body. subst s0. cbn [queue_data emit loaded_state progress disk].
  rewrite Hch, Hnot, (retry_budget_left _ _ _ Hbudget).
  repeat case_match; simpl; set_solver.
Qed.

(** C3 as stated fails: queue [["c"; "d"]] on a new checkpoint store, the
    scraper call for "c" is rate limited, the one for "d" succeeds.  The
    success sets [current_index] to 2, past "c", and the queue file is
    written with it; "c" has one recorded attempt of three and is not
    completed, yet a next invocation on these files, whatever its world
    and configuration, calls the scraper for nothing: "c" is not
    reattempted. *)
Lemma rate_limited_entity_not_reattempted :
  let w1 := world_of (λ i id, match i with
                              | O => RateLimited "429"
                              | _ => Success id
                              end) clock0 in
  let run1 := run_scraping w1 initial_config no_orch_stats
                (fresh_disk ["c"; "d"]) in
  let q1 := queue_data (final run1) in
  scrape_positions (trace (final run1)) = [0; 1]%nat
  ∧ failed_attempts q1 "c" = 1
  ∧ failed_attempts q1 "c" < max_channel_retries initial_config
  ∧ completed q1 = ["d"]
  ∧ current_index q1 = 2%nat
  ∧ queue_file (disk (final run1)) = Document q1
  ∧ ∀ w2 cfg2 o2,
      scrape_positions
        (trace (final (run_scraping w2 cfg2 o2 (disk (final run1))))) = [].
Proof.
  vm_compute. split_and!; try reflexivity.
Qed.

(** C3 (amended).  When the entity at position [i] is scraped:

    - a [RateLimited] outcome records a failure (attempts + 1, the message),
      leaves [current_index] as it was and writes no file.  If the run then
      ends with [current_index] at [i] (no later entity moved it) and the
      entity still has retry budget, the next invocation on the files the
      run leaves calls the scraper for it again, unless it is asked to shut
      down first;
    - a [TransientError] outcome records a failure, sets [current_index] to
      [i + 1] and writes the queue file with it.  However the run goes on,
      the next invocation on the files it leaves does not call the scraper
      at position [i].

    The run going on is [k] more iterations from position [i + 1] (cut
    short by a shutdown request or not) followed by the [finally] block. *)
Theorem rate_limited_stays_transient_advances
    (w : World) (cfg : Config) (i : nat) (s : RunState)
    (channel_id msg : string) :
  channels (queue_data s) !! i = Some channel_id →
  is_channel_completed channel_id (progress s) (output_dir (disk s)) = false →
  failed_attempts (queue_data s) channel_id < max_channel_retries cfg →
  (current_index (queue_data s) ≤ i)%nat →
  let s' := loop_body w cfg i s in
  let recorded :=
    ∃ r, failed (queue_data s') !! channel_id = Some r
       ∧ attempts r = failed_attempts (queue_data s) channel_id + 1
       ∧ last_error r = msg in
  let run_end (k : nat) := snd (scrape_loop w cfg k (S i) s') in
  let next_run (k : nat) (now : string) w2 cfg2 o2 :=
    run_scraping w2 cfg2 o2 (disk (finally_block now (run_end k))) in
  (scrape_channel w i channel_id = RateLimited msg →
     recorded
     ∧ current_index (queue_data s') = current_index (queue_data s)
     ∧ disk s' = disk s
     ∧ (∀ k now w2 cfg2 o2,
         current_index (queue_data (run_end k)) = i →
         failed_attempts (queue_data (run_end k)) channel_id
           < max_channel_retries cfg2 →
         shutdown_requested w2 i = false →
         EvScrape i channel_id ∈ trace (final (next_run k now w2 cfg2 o2))))
  ∧ (scrape_channel w i channel_id = TransientError msg →
     recorded
     ∧ current_index (queue_data s') = S i
     ∧ queue_file (disk s') = Document (queue_data s')
     ∧ ∀ k now w2 cfg2 o2 id,
         EvScrape i id ∉ trace (final (next_run k now w2 cfg2 o2))).
Proof.
  intros Hch Hnot Hbudget Hcur s' recorded run_end next_run.
  assert (Hbody : loop_body w cfg i s = s') by reflexivity.
  subst recorded next_run.
  revert Hbody. enter_try Hch Hnot Hbudget.
  match goal with
  | |- context [emit (EvScrape i channel_id) ?x] =>
      set (s1 := emit (EvScrape i channel_id) x)
  end.
  assert (Hq : queue_data s1 = queue_data s)
    by (subst s1; case_match; reflexivity).
  assert (Hd : disk s1 = disk s)
    by (subst s1; case_match; reflexivity).
  assert (Hp : progress s1 = progress s)
    by (subst s1; case_match; reflexivity).
  intros Hbody.
  destruct (record_failure_lookup (utcnow w i) channel_id msg s1)
    as (r & Hr & _ & Ha & He).
  rewrite Hq in Ha.
  split; intros Hout; rewrite Hout in Hbody.
  - (* RateLimited *)
    assert (Hcur' : current_index (queue_data s')
                    = current_index (queue_data s)).
    { rewrite <- Hbody.
      by rewrite queue_data_restart, record_failure_cursor, Hq. }
    split_and!.
    + exists r. rewrite <- Hbody. repeat split; assumption.
    + exact Hcur'.
    + rewrite <- Hbody. exact Hd.
    + intros k now w2 cfg2 o2. unfold run_end.
      set (e := snd (scrape_loop w cfg k (S i) s')).
      intros Hend Hbudget2 Hgo.
      set (fin := finally_block now e).
      destruct (finally_block_keeps now e)
        as (Hkq & Hkc & _ & Hko & Hqf & Hpf & _).
      fold fin in Hkq, Hkc, Hko, Hqf, Hpf.
      assert (Hle' : (current_index (queue_data s') ≤ S i)%nat) by lia.
      pose proof (scrape_loop_cursor_cases w cfg k (S i) s') as Hlo.
      fold e in Hlo.
      assert (Hi : current_index (queue_data s) = i) by lia.
      destruct (scrape_loop_cursor_kept w cfg k (S i) s' Hle')
        as [Hc Ho].
      { fold e. lia. }
      fold e in Hc, Ho.
      assert (Hchans : channels (queue_data e) = channels (queue_data s)).
      { unfold e. rewrite scrape_loop_channels.
        apply loop_body_channels. }
      assert (Hs' : completed_channels (progress s')
                    = completed_channels (progress s)
                    ∧ output_dir (disk s') = output_dir (disk s)).
      { rewrite <- Hbody, <- Hp, <- Hd. split; reflexivity. }
      destruct Hs' as [Hc0 Ho0].
      rewrite <- Hend.
      apply (run_scraping_scrapes_cursor w2 cfg2 o2 (disk fin)
               (queue_data e) (progress fin)).
      * exact Hqf.
      * rewrite Hpf. reflexivity.
      * rewrite Hend, Hchans. exact Hch.
      * rewrite Hko, Ho, Ho0.
        unfold is_channel_completed in *.
        rewrite Hkc, Hc, Hc0. exact Hnot.
      * exact Hbudget2.
      * rewrite Hend. exact Hgo.
  - (* TransientError *)
    assert (Hcur' : current_index (queue_data s') = S i).
    { rewrite <- Hbody. case_match; reflexivity. }
    split_and!.
    + exists r. rewrite <- Hbody.
      case_match; simpl; repeat split; assumption.
    + exact Hcur'.
    + rewrite <- Hbody. case_match; reflexivity.
    + intros k now w2 cfg2 o2 id. unfold run_end.
      set (e := snd (scrape_loop w cfg k (S i) s')).
      intros Hin.
      destruct (finally_block_keeps now e) as (_ & _ & _ & _ & Hqf & _).
      apply (run_scraping_from_cursor _ _ _ _ _ _ _ Hqf) in Hin.
      assert (Hle' : (current_index (queue_data s') ≤ S i)%nat) by lia.
      pose proof (scrape_loop_cursor_bounds w cfg k (S i) s' Hle')
        as [Hlo _].
      fold e in Hlo. lia.
Qed.

Lemma rate_limited_stays_transient_advances_witness :
  let s0 := emit EvStartBrowser
              (loaded_state no_orch_stats (fresh_disk ["c"])
                 {| channels := ["c"]; completed := [];
                    failed := ∅; current_index := 0 |} default_progress) in
  let w := world_of (λ _ _, RateLimited "429") clock0 in
  let left := disk (finally_block (clock0 1%nat)
                      (loop_body w initial_config 0 s0)) in
  EvScrape 0 "c"
    ∈ trace (final (run_scraping w initial_config no_orch_stats left)).
Proof.
  intros s0 w left.
  destruct (rate_limited_stays_transient_advances
              w initial_config 0 s0 "c" "429") as [Hrl _].
  - reflexivity.
  - reflexivity.
  - vm_compute. reflexivity.
  - simpl. lia.
  - destruct (Hrl eq_refl) as (_ & _ & _ & Hnext).
    apply (Hnext 0%nat (clock0 1%nat) w initial_config no_orch_stats).
    + reflexivity.
    + vm_compute. reflexivity.
    + reflexivity.
Defined.
